(** * omniledger/service: instructions, contracts and transaction ordering

    A shallow embedding of [transaction.go] and [contracts.go] of the
    omniledger service.  Byte slices are lists of bytes, Go strings are
    strings (a Go string is a byte sequence), Go [int] values are integers,
    the transaction buffer is a finite map.  What the service calls in other
    packages (SHA-256, the darc library, protobuf, onet's network encoding,
    [sort.Slice]) is a variable of the section that uses it. *)

From Stdlib Require Import ZArith Lia.
From Stdlib.Strings Require Import Byte Ascii String.
From Stdlib Require Import Permutation Sorted.
From stdpp Require Import gmap strings list.

Local Open Scope string_scope.
Local Open Scope Z_scope.
Local Open Scope list_scope.

(** ** Bytes and Go built-ins *)

Definition bytes := list byte.

(** Go's conversion [byte(v)] of an unsigned integer: the low eight bits. *)
Definition byte_of_Z (v : Z) : byte :=
  match Byte.of_N (Z.to_N (Z.land v 255)) with
  | Some b => b
  | None => x00
  end.

Definition Z_of_byte (b : byte) : Z := Z.of_N (Byte.to_N b).

(** Go's [^] on two bytes. *)
Definition byte_xor (a b : byte) : byte :=
  byte_of_Z (Z.lxor (Z_of_byte a) (Z_of_byte b)).

(** Go's [[]byte(s)] for a string [s]. *)
Definition bytes_of_string (s : string) : bytes := list_byte_of_string s.

(** Go's [make([]byte, n)]: [n] zero bytes. *)
Definition make_bytes (n : nat) : bytes := replicate n x00.

(** Go's built-in [copy(dst, src)]: the first [min(len dst, len src)]
    elements of [dst] are overwritten, the rest of [dst] is kept. *)
Definition copy {A : Type} (dst src : list A) : list A :=
  take (length dst) src ++ drop (length src) dst.

(** Go's [uint32(x)] for an [int] [x]: truncation to 32 bits. *)
Definition uint32 (x : Z) : Z := x mod 2 ^ 32.

(** [binary.LittleEndian.PutUint32(b, v)] on a 4-byte buffer:
    [b[0] = byte(v); b[1] = byte(v >> 8); b[2] = byte(v >> 16);
     b[3] = byte(v >> 24)]. *)
Definition PutUint32 (v : Z) : bytes :=
  [ byte_of_Z v
  ; byte_of_Z (Z.shiftr v 8)
  ; byte_of_Z (Z.shiftr v 16)
  ; byte_of_Z (Z.shiftr v 24) ].

(** [bytes.Compare]: lexicographic order, a proper prefix is smaller. *)
Fixpoint bytes_Compare (a b : bytes) : comparison :=
  match a, b with
  | [], [] => Eq
  | [], _ :: _ => Lt
  | _ :: _, [] => Gt
  | x :: a', y :: b' =>
      match Z.compare (Z_of_byte x) (Z_of_byte y) with
      | Eq => bytes_Compare a' b'
      | c => c
      end
  end.

(** Go errors are modelled by their message. *)
Definition error := string.

Inductive result (A : Type) : Type :=
| Ok (a : A)
| Err (e : error).
Arguments Ok {A} a.
Arguments Err {A} e.

(** A Go call either returns or panics (nil dereference). *)
Inductive outcome (A : Type) : Type :=
| Returns (a : A)
| Panics.
Arguments Returns {A} a.
Arguments Panics {A}.

(** ** Identifiers (transaction.go, lines 21-57) *)

(** [type InstanceID [32]byte] and [type Nonce [32]byte]: arrays are lists
    whose length is 32; the constructors below establish that length. *)
Definition InstanceID := bytes.
Definition Nonce := bytes.

(** The zero value [Nonce{}] / [InstanceID{}]. *)
Definition zero32 : bytes := make_bytes 32.

Definition NewNonce (buf : bytes) : Nonce :=
  if negb (Nat.eqb (length buf) 32) then zero32
  else copy zero32 buf.

Definition InstanceIDFromSlice (inp : bytes) : InstanceID :=
  copy zero32 inp.

Definition Slice (i : InstanceID) : bytes := i.

(** [contracts.go]: [var GenesisReferenceID = InstanceID{}]. *)
Definition GenesisReferenceID : InstanceID := zero32.
Definition ContractConfigID : string := "config".
Definition ContractDarcID : string := "darc".
Definition CmdDarcEvolve : string := "evolve".

(** ** Arguments *)

Record Argument : Type := mkArgument
  { Argument_Name : string
  ; Argument_Value : bytes }.

Definition Arguments := list Argument.

(** [Arguments.Search]: the value of the first argument of that name, or
    nil (here the empty slice: nothing below tells nil from empty). *)
Fixpoint Search (args : Arguments) (name : string) : bytes :=
  match args with
  | [] => []
  | arg :: rest =>
      if String.eqb (Argument_Name arg) name then Argument_Value arg
      else Search rest name
  end.

Record Spawn : Type := mkSpawn
  { Spawn_ContractID : string
  ; Spawn_Args : Arguments }.

Record Invoke : Type := mkInvoke
  { Invoke_Command : string
  ; Invoke_Args : Arguments }.

Inductive Delete : Type := mkDelete.

(** [type InstrType int] with its four constants. *)
Inductive InstrType : Type :=
| InvalidInstrType
| SpawnType
| InvokeType
| DeleteType.

(** [type StateAction int]: [Create = 1], [Update = 2], [Remove = 3]. *)
Inductive StateAction : Type :=
| Create
| Update
| Remove.

(** A Go slice value is nil or has elements; [append] of either gives a
    slice that is not nil. *)
Inductive slice (A : Type) : Type :=
| nil_slice
| slice_of (l : list A).
Arguments nil_slice {A}.
Arguments slice_of {A} l.

Definition append {A : Type} (s : slice A) (x : A) : slice A :=
  match s with
  | nil_slice => slice_of [x]
  | slice_of l => slice_of (l ++ [x])
  end.

Definition elements_of {A : Type} (s : slice A) : list A :=
  match s with
  | nil_slice => []
  | slice_of l => l
  end.

(** ** The hash interface

    [h := sha256.New()] followed by [h.Write(p)] calls and [h.Sum(nil)]: the
    state of the hash is what has been written so far, and [Sum(nil)] is the
    digest of it. *)
Definition hash := bytes.
Definition sha256_New : hash := [].
Definition Write (h : hash) (p : bytes) : hash := h ++ p.

Section Service.

(** [sha256.Sum256], from [crypto/sha256]. *)
Variable sha256_Sum256 : bytes -> bytes.

Definition Sum (h : hash) : bytes := sha256_Sum256 h.

(** [darc.Identity], opaque here. *)
Variable Identity : Type.

(** [darc.Signature]. *)
Record Signature : Type := mkSignature
  { Signature_Signature : bytes
  ; Signature_Signer : Identity }.

Record Instruction : Type := mkInstruction
  { Instruction_InstanceID : InstanceID
  ; Instruction_Nonce : Nonce
  ; Instruction_Index : Z
  ; Instruction_Length : Z
  ; Instruction_Spawn : option Spawn
  ; Instruction_Invoke : option Invoke
  ; Instruction_Delete : option Delete
  ; Instruction_Signatures : list Signature }.

(** The loop [for _, a := range args] of [Hash]. *)
Definition write_args (h : hash) (args : list Argument) : hash :=
  fold_left
    (fun h a => Write (Write h (bytes_of_string (Argument_Name a)))
                      (Argument_Value a))
    args h.

(** [Instruction.Hash] (transaction.go, lines 76-102). *)
Definition Hash (instr : Instruction) : bytes :=
  let h := sha256_New in
  let h := Write h (Instruction_InstanceID instr) in
  let h := Write h (Instruction_Nonce instr) in
  let b := PutUint32 (uint32 (Instruction_Index instr)) in
  let h := Write h b in
  let b := PutUint32 (uint32 (Instruction_Length instr)) in
  let h := Write h b in
  let '(h, args) :=
    match Instruction_Spawn instr, Instruction_Invoke instr,
          Instruction_Delete instr with
    | Some sp, _, _ =>
        let h := Write h [x00] in
        let h := Write h (bytes_of_string (Spawn_ContractID sp)) in
        (h, Spawn_Args sp)
    | None, Some inv, _ =>
        let h := Write h [x01] in
        (h, Invoke_Args inv)
    | None, None, Some _ =>
        let h := Write h [x02] in
        (h, [])
    | None, None, None => (h, [])
    end in
  let h := write_args h args in
  Sum h.

(** [Instruction.Action] (lines 162-173). *)
Definition Action (instr : Instruction) : string :=
  match Instruction_Spawn instr, Instruction_Invoke instr,
        Instruction_Delete instr with
  | Some sp, _, _ => "spawn:" ++ Spawn_ContractID sp
  | None, Some inv, _ => "invoke:" ++ Invoke_Command inv
  | None, None, Some _ => "Delete"
  | None, None, None => "invalid"
  end.

(** [Instruction.GetType] (lines 384-394). *)
Definition GetType (instr : Instruction) : InstrType :=
  match Instruction_Spawn instr, Instruction_Invoke instr,
        Instruction_Delete instr with
  | Some _, None, None => SpawnType
  | None, Some _, None => InvokeType
  | None, None, Some _ => DeleteType
  | _, _, _ => InvalidInstrType
  end.


(** ** Conversion to a darc request (transaction.go, lines 224-248) *)

(** The darc library (package [darc], outside this package). *)
Variable Darc : Type.
Variable darc_NewFromProtobuf : bytes -> result Darc.
Variable darc_Rules_len : Darc -> nat.
Variable darc_Verify : Darc -> bool -> option error.
Variable darc_GetBaseID : Darc -> bytes.
Variable darc_GetID : Darc -> bytes.

(** Modelled from the spec: [darc.Request] and [darc.InitRequest] are
    declared in the darc package; the spec gives the request as
    [Request{base, action, msg, identities, sigs}], filled with the five
    arguments of [InitRequest] in that order. *)
Record Request : Type := InitRequest
  { Request_BaseID : bytes
  ; Request_Action : string
  ; Request_Msg : bytes
  ; Request_Identities : list Identity
  ; Request_Signatures : list bytes }.

Definition ToDarcRequest (instr : Instruction) (baseID : bytes)
  : outcome (result Request) :=
  let action := Action instr in
  let ids := map Signature_Signer (Instruction_Signatures instr) in
  let sigs := map Signature_Signature (Instruction_Signatures instr) in
  if String.eqb action "_evolve" then
    match Instruction_Invoke instr with
    | None => Panics
    | Some inv =>
        let darcBuf := Search (Invoke_Args inv) "darc" in
        match darc_NewFromProtobuf darcBuf with
        | Err err => Returns (Err err)
        | Ok d =>
            Returns (Ok (InitRequest baseID action (darc_GetID d) ids sigs))
        end
    end
  else
    Returns (Ok (InitRequest baseID action (Hash instr) ids sigs)).

(** ** Transactions and state changes *)

Definition Instructions := list Instruction.

Record ClientTransaction : Type := mkClientTransaction
  { ClientTransaction_Instructions : Instructions }.

Definition ClientTransactions := list ClientTransaction.

(** [ClientTransactions.IsEmpty] (lines 275-282): the inner loop returns
    [false] at its first iteration. *)
Fixpoint IsEmpty (cts : ClientTransactions) : bool :=
  match cts with
  | [] => true
  | ct :: rest =>
      match ClientTransaction_Instructions ct with
      | _ :: _ => false
      | [] => IsEmpty rest
      end
  end.

Record StateChange : Type := mkStateChange
  { StateChange_StateAction : StateAction
  ; StateChange_InstanceID : bytes
  ; StateChange_ContractID : bytes
  ; StateChange_Value : bytes
  ; StateChange_DarcID : bytes }.

Definition NewStateChange (sa : StateAction) (iID : InstanceID)
    (contractID : string) (value : bytes) (darcID : bytes) : StateChange :=
  {| StateChange_StateAction := sa
   ; StateChange_InstanceID := Slice iID
   ; StateChange_ContractID := bytes_of_string contractID
   ; StateChange_Value := value
   ; StateChange_DarcID := darcID |}.

Record Coin : Type := mkCoin
  { Coin_Name : InstanceID
  ; Coin_Value : Z }.

(** ** The config contract (contracts.go, lines 200-259) *)

(** [onet.Roster] and the protobuf codec, outside this package. *)
Variable Roster : Type.

Record ChainConfig : Type := mkChainConfig
  { ChainConfig_BlockInterval : Z
  ; ChainConfig_Roster : Roster }.

Variable protobuf_Decode_Roster : bytes -> result Roster.
Variable protobuf_Encode_ChainConfig : ChainConfig -> result bytes.

(** [binary.Varint] of [encoding/binary]: the decoded [int64] and the
    number of bytes read. *)
Variable binary_Varint : bytes -> Z * Z.

Definition DeriveConfigID (id : bytes) : InstanceID :=
  let h := sha256_New in
  let h := Write h id in
  let h := Write h [x00] in
  let h := Write h (bytes_of_string "config") in
  let sum := Sum h in
  InstanceIDFromSlice sum.

(** What a contract returns: [(sc []StateChange, c []Coin, err error)];
    a nil slice is the empty list. *)
Record ContractReturn : Type := mkContractReturn
  { ret_sc : list StateChange
  ; ret_c : list Coin
  ; ret_err : option error }.

(** [Service.spawnContractConfig]; the receiver and the view [cdb] are not
    used by the body, logging is left out. *)
Definition spawnContractConfig (inst : Instruction) (coins : list Coin)
  : outcome ContractReturn :=
  let c := coins in
  match Instruction_Spawn inst with
  | None => Panics
  | Some spawn =>
      let darcBuf := Search (Spawn_Args spawn) "darc" in
      match darc_NewFromProtobuf darcBuf with
      | Err err => Returns (mkContractReturn [] c (Some err))
      | Ok d =>
          if Nat.eqb (darc_Rules_len d) 0 then
            Returns (mkContractReturn [] []
                       (Some "don't accept darc with empty rules"))
          else
            match darc_Verify d true with
            | Some err => Returns (mkContractReturn [] c (Some err))
            | None =>
                let intervalBuf := Search (Spawn_Args spawn) "block_interval" in
                let interval := fst (binary_Varint intervalBuf) in
                if (interval <=? 0)%Z then
                  Returns (mkContractReturn [] c
                             (Some "block interval is less or equal to zero"))
                else
                  let rosterBuf := Search (Spawn_Args spawn) "roster" in
                  match protobuf_Decode_Roster rosterBuf with
                  | Err err => Returns (mkContractReturn [] c (Some err))
                  | Ok roster =>
                      let config :=
                        {| ChainConfig_BlockInterval := interval
                         ; ChainConfig_Roster := roster |} in
                      match protobuf_Encode_ChainConfig config with
                      | Err err => Returns (mkContractReturn [] c (Some err))
                      | Ok configBuf =>
                          let id := darc_GetBaseID d in
                          Returns (mkContractReturn
                            [ NewStateChange Create GenesisReferenceID
                                ContractConfigID id id
                            ; NewStateChange Create (InstanceIDFromSlice id)
                                ContractDarcID darcBuf id
                            ; NewStateChange Create (DeriveConfigID id)
                                ContractConfigID configBuf id ]
                            c None)
                      end
                  end
            end
      end
  end.

(** ** The transaction buffer (transaction.go, lines 396-430)

    Every method holds the mutex for its whole body, so each call is one
    atomic step on the map. *)

Record txBuffer : Type := mkTxBuffer
  { txsMap : gmap string (slice ClientTransaction) }.

Definition newTxBuffer : txBuffer := {| txsMap := ∅ |}.

(** [take] returns the slice and the buffer it leaves behind. *)
Definition take_tx (r : txBuffer) (key : string)
  : slice ClientTransaction * txBuffer :=
  match txsMap r !! key with
  | None => (slice_of [], r)
  | Some txs => (txs, {| txsMap := delete key (txsMap r) |})
  end.

Definition add_tx (r : txBuffer) (key : string) (newTx : ClientTransaction)
  : txBuffer :=
  match txsMap r !! key with
  | None => {| txsMap := <[key := slice_of [newTx]]> (txsMap r) |}
  | Some txs =>
      let txs := append txs newTx in
      {| txsMap := <[key := txs]> (txsMap r) |}
  end.

(** A history of calls on one buffer. *)
Inductive txCall : Type :=
| CallAdd (key : string) (newTx : ClientTransaction)
| CallTake (key : string).

Definition run_call (r : txBuffer) (c : txCall) : txBuffer :=
  match c with
  | CallAdd key newTx => add_tx r key newTx
  | CallTake key => snd (take_tx r key)
  end.

Definition run_calls (r : txBuffer) (cs : list txCall) : txBuffer :=
  fold_left run_call cs r.

(** The transactions added for [key] since the last [take] of [key], in
    the order of the calls. *)
Fixpoint pending (key : string) (acc : list ClientTransaction)
    (cs : list txCall) : list ClientTransaction :=
  match cs with
  | [] => acc
  | CallAdd k newTx :: rest =>
      if String.eqb k key then pending key (acc ++ [newTx]) rest
      else pending key acc rest
  | CallTake k :: rest =>
      if String.eqb k key then pending key [] rest
      else pending key acc rest
  end.

(** What the map holds for [key] when the transactions [acc] wait for
    it: no entry when nothing waits, the transactions otherwise. *)
Definition holds (r : txBuffer) (key : string)
    (acc : list ClientTransaction) : Prop :=
  txsMap r !! key = match acc with
                    | [] => None
                    | _ :: _ => Some (slice_of acc)
                    end.

(** ** Ordering of a batch (transaction.go, lines 432-497) *)

(** onet's [network.Marshal] and [network.Unmarshal]; a decoded message is
    a [*ClientTransaction] or a value of another registered type. *)
Inductive Message : Type :=
| MsgClientTransaction (ct : ClientTransaction)
| MsgOther.

Variable network_Marshal : ClientTransaction -> result bytes.
Variable network_Unmarshal : bytes -> result Message.

(** [sort.Slice] of package [sort], with [less] given on elements. *)
Variable sort_Slice : (bytes -> bytes -> bool) -> list bytes -> list bytes.

(** The closure [less] of [sortWithSalt]. *)
Definition salted_less (salt : bytes) (a b : bytes) : bool :=
  let h1 := sha256_Sum256 (salt ++ a) in
  let h2 := sha256_Sum256 (salt ++ b) in
  match bytes_Compare h1 h2 with
  | Lt => true
  | _ => false
  end.

Definition sortWithSalt (ts : list bytes) (salt : bytes) : list bytes :=
  sort_Slice (salted_less salt) ts.

(** [for i := range result { result[i] = result[i] ^ hs[i] }]. *)
Definition xor_into (result hs : bytes) : bytes :=
  imap (fun i r => byte_xor r (nth i hs x00)) result.

Definition xorTransactions (ts : list bytes) : bytes :=
  fold_left (fun result t => let hs := sha256_Sum256 t in xor_into result hs)
    ts (make_bytes 32).

(** First loop of [sortTransactions]: stop at the first encoding error. *)
Fixpoint marshal_all (ts : list ClientTransaction) : result (list bytes) :=
  match ts with
  | [] => Ok []
  | t :: rest =>
      match network_Marshal t with
      | Err err => Err err
      | Ok b =>
          match marshal_all rest with
          | Err err => Err err
          | Ok bs => Ok (b :: bs)
          end
      end
  end.

(** Second loop: stop at the first decoding error or foreign message. *)
Fixpoint unmarshal_all (bs : list bytes) : result (list ClientTransaction) :=
  match bs with
  | [] => Ok []
  | b :: rest =>
      match network_Unmarshal b with
      | Err err => Err err
      | Ok MsgOther => Err "Data of wrong type"
      | Ok (MsgClientTransaction ct) =>
          match unmarshal_all rest with
          | Err err => Err err
          | Ok cts => Ok (ct :: cts)
          end
      end
  end.

(** Third loop: [for i := range sortedTs { ts[i] = *sortedTs[i] }]. *)
Fixpoint write_back (ts sortedTs : list ClientTransaction)
  : list ClientTransaction :=
  match ts, sortedTs with
  | _ :: ts', s :: sortedTs' => s :: write_back ts' sortedTs'
  | _, _ => ts
  end.

(** [sortTransactions] works on the caller's slice: the result is the
    content of that slice after the call, and the error returned. *)
Definition sortTransactions (ts : list ClientTransaction)
  : list ClientTransaction * option error :=
  match marshal_all ts with
  | Err err => (ts, Some err)
  | Ok bs =>
      let salt := xorTransactions bs in
      let bs := sortWithSalt bs salt in
      match unmarshal_all bs with
      | Err err => (ts, Some err)
      | Ok sortedTs => (write_back ts sortedTs, None)
      end
  end.

(** ** The specification's wording, for comparison *)

(** A [k]-byte little-endian number: least significant byte first. *)
Fixpoint little_endian (k : nat) (n : Z) : bytes :=
  match k with
  | O => []
  | S k' => byte_of_Z (n mod 256) :: little_endian k' (n / 256)
  end.

Definition u32_le (n : Z) : bytes := little_endian 4 (n mod 2 ^ 32).

Definition spec_tag (t : InstrType) : bytes :=
  match t with
  | SpawnType => [x00]
  | InvokeType => [x01]
  | DeleteType => [x02]
  | InvalidInstrType => []
  end.

Definition spec_args (args : list Argument) : bytes :=
  concat (map (fun a => bytes_of_string (Argument_Name a) ++ Argument_Value a)
            args).

Definition spec_body (instr : Instruction) : bytes :=
  match GetType instr, Instruction_Spawn instr, Instruction_Invoke instr with
  | SpawnType, Some sp, _ =>
      bytes_of_string (Spawn_ContractID sp) ++ spec_args (Spawn_Args sp)
  | InvokeType, _, Some inv => spec_args (Invoke_Args inv)
  | _, _, _ => []
  end.

Definition spec_preimage (instr : Instruction) : bytes :=
  Instruction_InstanceID instr ++ Instruction_Nonce instr
    ++ u32_le (Instruction_Index instr) ++ u32_le (Instruction_Length instr)
    ++ spec_tag (GetType instr) ++ spec_body instr.

(** XOR of two digests, byte by byte. *)
Definition bytes_xor (a b : bytes) : bytes := zip_with byte_xor a b.

(** The salt: XOR over all [b] of SHA-256([b]). *)
Definition spec_salt (bs : list bytes) : bytes :=
  fold_left (fun acc b => bytes_xor acc (sha256_Sum256 b)) bs zero32.

(** The sort key of an encoded transaction: SHA-256(salt ‖ b). *)
Definition spec_key (salt b : bytes) : bytes := sha256_Sum256 (salt ++ b).

(** [a] is not after [b] in the lexicographic order. *)
Definition bytes_le (a b : bytes) : Prop := bytes_Compare a b <> Gt.

(** The encoded transaction [b] decodes to a client transaction. *)
Definition decodes (b : bytes) : Prop :=
  exists ct, network_Unmarshal b = Ok (MsgClientTransaction ct).

(** What [sort.Slice] promises for a [less] that is a strict weak order:
    the result is a rearrangement of the input in which no element is
    smaller than an earlier one. *)
Definition strict_weak (less : bytes -> bytes -> bool) : Prop :=
  (forall a b, less a b = true -> less b a = false) /\
  (forall a b c, less a b = false -> less b c = false -> less a c = false).

Definition sort_contract : Prop :=
  forall less l,
    Permutation (sort_Slice less l) l /\
    (strict_weak less ->
     StronglySorted (fun a b => less b a = false) (sort_Slice less l)).

(** ** Derived identifiers, transaction hashes and signing
       (transaction.go, lines 104-117, 187-222, 250-272) *)

(** [Instruction.DeriveID]. *)
Definition DeriveID (instr : Instruction) (what : string) : InstanceID :=
  let h := sha256_New in
  let h := Write h (Hash instr) in
  let h := Write h [x00] in
  let h :=
    fold_left (fun h s => Write (Write h (Signature_Signature s)) [x00])
      (Instruction_Signatures instr) h in
  let h := Write h (bytes_of_string what) in
  let h := Write h [x00] in
  InstanceIDFromSlice (Sum h).

(** [Instructions.Hash]. *)
Definition Instructions_Hash (instrs : Instructions) : bytes :=
  Sum (fold_left (fun h instr => Write h (Hash instr)) instrs sha256_New).

(** [ClientTransactions.Hash]. *)
Definition ClientTransactions_Hash (cts : ClientTransactions) : bytes :=
  Sum (fold_left
         (fun h ct =>
            Write h (Instructions_Hash (ClientTransaction_Instructions ct)))
         cts sha256_New).

(** The assignment [instr.Signatures = sigs]. *)
Definition set_Signatures (instr : Instruction) (sigs : list Signature)
  : Instruction :=
  {| Instruction_InstanceID := Instruction_InstanceID instr
   ; Instruction_Nonce := Instruction_Nonce instr
   ; Instruction_Index := Instruction_Index instr
   ; Instruction_Length := Instruction_Length instr
   ; Instruction_Spawn := Instruction_Spawn instr
   ; Instruction_Invoke := Instruction_Invoke instr
   ; Instruction_Delete := Instruction_Delete instr
   ; Instruction_Signatures := sigs |}.

(** [darc.Signer] with its two methods, [darc.Request.Hash], and the zero
    value of [darc.Identity]: all of the darc package. *)
Variable Signer : Type.
Variable Signer_Identity : Signer -> Identity.
Variable Signer_Sign : Signer -> bytes -> result bytes.
Variable Request_Hash : Request -> bytes.
Variable Identity_zero : Identity.

(** The assignment [req.Identities = ids]. *)
Definition set_Identities (req : Request) (ids : list Identity) : Request :=
  {| Request_BaseID := Request_BaseID req
   ; Request_Action := Request_Action req
   ; Request_Msg := Request_Msg req
   ; Request_Identities := ids
   ; Request_Signatures := Request_Signatures req |}.

(** The last loop of [SignBy], from index [i] on: [instr.Signatures[i]] is
    written for each signer in turn, and the loop returns at the first
    signer that fails. *)
Fixpoint sign_loop (digest : bytes) (signers : list Signer) (i : nat)
    (sigs : list Signature) : list Signature * option error :=
  match signers with
  | [] => (sigs, None)
  | signer :: rest =>
      match Signer_Sign signer digest with
      | Err err => (sigs, Some err)
      | Ok sig =>
          sign_loop digest rest (S i)
            (<[i := mkSignature sig (Signer_Identity signer)]> sigs)
      end
  end.

(** [Instruction.SignBy] has a pointer receiver: the result is the
    instruction after the call, and the error returned. *)
Definition SignBy (instr : Instruction) (darcID : bytes)
    (signers : list Signer) : outcome (Instruction * option error) :=
  let sigs := map (fun signer => mkSignature [] (Signer_Identity signer))
                signers in
  let instr := set_Signatures instr sigs in
  match ToDarcRequest instr darcID with
  | Panics => Panics
  | Returns (Err err) => Returns (instr, Some err)
  | Returns (Ok req) =>
      let req := set_Identities req (map Signer_Identity signers) in
      let digest := Request_Hash req in
      let instr :=
        set_Signatures instr
          (replicate (length signers) (mkSignature [] Identity_zero)) in
      let '(sigs, err) :=
        sign_loop digest signers 0 (Instruction_Signatures instr) in
      Returns (set_Signatures instr sigs, err)
  end.

(** ** Reading the collection (transaction.go, lines 119-158;
       contracts.go, lines 29-100) *)

(** The view of the collection and its records are of the collection
    package; a value of a record is a byte slice or something else. *)
Variable CollectionView : Type.
Variable collection_Record : Type.

Inductive GoValue : Type :=
| ValBytes (b : bytes)
| ValOther.

(** [coll.Get(key).Record()] and [record.Values()]. *)
Variable coll_Get_Record : CollectionView -> bytes -> result collection_Record.
Variable Record_Values : collection_Record -> result (list GoValue).

(** [Instruction.GetContractState]: the three named results. *)
Definition GetContractState (instr : Instruction) (coll : CollectionView)
  : outcome (string * bytes * option error) :=
  match Instruction_Spawn instr with
  | Some sp => Returns (Spawn_ContractID sp, [], None)
  | None =>
      match coll_Get_Record coll (Slice (Instruction_InstanceID instr)) with
      | Err err => Returns ("", [], Some err)
      | Ok record =>
          match Record_Values record with
          | Err err => Returns ("", [], Some err)
          | Ok cv =>
              match cv !! 1%nat with
              | None => Panics
              | Some ValOther =>
                  Returns ("", [], Some "failed to cast value to bytes")
              | Some (ValBytes contractIDBuf) =>
                  let contractID := string_of_list_byte contractIDBuf in
                  match cv !! 0%nat with
                  | None => Panics
                  | Some ValOther =>
                      Returns (contractID, [],
                               Some "failed to cast value to bytes")
                  | Some (ValBytes state) => Returns (contractID, state, None)
                  end
              end
          end
      end
  end.

(** [getValueContract] and [CollectionView.GetValues] are declared in
    another file of the package: the value, the contract and the darc ID
    stored under a key, or an error. *)
Variable getValueContract :
  CollectionView -> bytes -> result (bytes * bytes * bytes).
Variable GetValues :
  CollectionView -> bytes -> result (bytes * string * bytes).
Variable protobuf_Decode_ChainConfig : bytes -> result ChainConfig.

(** [defaultInterval], a constant of another file of the package. *)
Variable defaultInterval : Z.

Definition LoadConfigFromColl (coll : CollectionView) : result ChainConfig :=
  match getValueContract coll (Slice GenesisReferenceID) with
  | Err err => Err err
  | Ok (val, contract, _) =>
      if negb (String.eqb (string_of_list_byte contract) ContractConfigID)
      then Err ("did not get " ++ ContractConfigID)%string
      else if negb (Nat.eqb (length val) 32) then
        Err "value has invalid length"
      else
        let cfgid := DeriveConfigID val in
        match getValueContract coll (Slice cfgid) with
        | Err err => Err err
        | Ok (val, contract, _) =>
            if negb (String.eqb (string_of_list_byte contract)
                       ContractConfigID)
            then Err ("did not get " ++ ContractConfigID)%string
            else
              match protobuf_Decode_ChainConfig val with
              | Err err => Err err
              | Ok config => Ok config
              end
        end
  end.

Definition LoadBlockIntervalFromColl (coll : CollectionView)
  : Z * option error :=
  match LoadConfigFromColl coll with
  | Err err => (defaultInterval, Some err)
  | Ok config => (ChainConfig_BlockInterval config, None)
  end.

Definition LoadDarcFromColl (coll : CollectionView) (key : bytes)
  : result Darc :=
  match coll_Get_Record coll key with
  | Err err => Err err
  | Ok rec =>
      match Record_Values rec with
      | Err err => Err err
      | Ok vs =>
          if (length vs <? 2)%nat then Err "not enough records"
          else
            match vs !! 1%nat with
            | Some (ValBytes contractBuf) =>
                if negb (String.eqb (string_of_list_byte contractBuf)
                           ContractDarcID)
                then Err ("expected contract to be darc but got: "
                          ++ string_of_list_byte contractBuf)%string
                else
                  match vs !! 0%nat with
                  | Some (ValBytes darcBuf) =>
                      match darc_NewFromProtobuf darcBuf with
                      | Err err => Err err
                      | Ok d => Ok d
                      end
                  | _ => Err "cannot cast value to byte slice"
                  end
            | _ => Err "can not cast value to byte slice"
            end
      end
  end.

(** ** The config contract, continued (contracts.go, lines 102-198) *)

(** onet's roster: [oldRoster.IsRotation(&newRoster)], [onet.NewRoster]
    (a pointer, nil is [None]) on the list of a roster, the comparison of
    two roster IDs and the comparison of two aggregate keys (a method of an
    interface value, which panics on nil). *)
Variable ServerIdentity : Type.
Variable Roster_IsRotation : Roster -> Roster -> bool.
Variable Roster_List : Roster -> list ServerIdentity.
Variable onet_NewRoster : list ServerIdentity -> option Roster.
Variable Roster_ID_Equal : Roster -> Roster -> bool.
Variable Roster_Aggregate_Equal : Roster -> Roster -> outcome bool.

Definition validRotation (oldRoster newRoster : Roster)
  : outcome (option error) :=
  if negb (Roster_IsRotation oldRoster newRoster) then
    Returns (Some "the new roster is not a valid rotation of the old roster")
  else
    match onet_NewRoster (Roster_List newRoster) with
    | None => Panics
    | Some newRoster2 =>
        if negb (Roster_ID_Equal newRoster2 newRoster) then
          Returns (Some "re-created roster does not have the same ID")
        else
          match Roster_Aggregate_Equal newRoster2 newRoster with
          | Panics => Panics
          | Returns false =>
              Returns (Some "re-created roster does not have the same aggregate public key")
          | Returns true => Returns None
          end
    end.

Definition updateRosterScs (cdb : CollectionView) (darcID : bytes)
    (newRoster : Roster) : result (list StateChange) :=
  match LoadConfigFromColl cdb with
  | Err err => Err err
  | Ok config =>
      let config :=
        {| ChainConfig_BlockInterval := ChainConfig_BlockInterval config
         ; ChainConfig_Roster := newRoster |} in
      match protobuf_Encode_ChainConfig config with
      | Err err => Err err
      | Ok configBuf =>
          Ok [ NewStateChange Update (DeriveConfigID darcID)
                 ContractConfigID configBuf darcID ]
      end
  end.

(** [Service.withinInterval], a method declared in another file of the
    package, and the public key of a signer,
    [Signer.Ed25519.Point], where [Ed25519] is a pointer (nil is [None]). *)
Variable Point : Type.
Variable withinInterval : bytes -> Point -> option error.
Variable Identity_Ed25519_Point : Identity -> option Point.

Definition invokeContractConfig (cdb : CollectionView) (inst : Instruction)
    (coins : list Coin) : outcome ContractReturn :=
  let cOut := coins in
  match GetValues cdb (Slice (Instruction_InstanceID inst)) with
  | Err err => Returns (mkContractReturn [] cOut (Some err))
  | Ok (_, _, darcID) =>
      match Instruction_Invoke inst with
      | None => Panics
      | Some invoke =>
          if String.eqb (Invoke_Command invoke) "update_config" then
            let configBuf := Search (Invoke_Args invoke) "config" in
            match protobuf_Decode_ChainConfig configBuf with
            | Err err => Returns (mkContractReturn [] cOut (Some err))
            | Ok newConfig =>
                if (ChainConfig_BlockInterval newConfig <=? 0)%Z then
                  Returns (mkContractReturn [] cOut
                    (Some "block interval is less than or equal to zero"))
                else
                  Returns (mkContractReturn
                    [ NewStateChange Update (DeriveConfigID darcID)
                        ContractConfigID configBuf darcID ]
                    cOut None)
            end
          else if String.eqb (Invoke_Command invoke) "view_change" then
            match LoadConfigFromColl cdb with
            | Err err => Returns (mkContractReturn [] cOut (Some err))
            | Ok config =>
                let newRosterBuf := Search (Invoke_Args invoke) "roster" in
                match protobuf_Decode_Roster newRosterBuf with
                | Err err => Returns (mkContractReturn [] cOut (Some err))
                | Ok newRoster =>
                    match validRotation (ChainConfig_Roster config) newRoster with
                    | Panics => Panics
                    | Returns (Some err) =>
                        Returns (mkContractReturn [] cOut (Some err))
                    | Returns None =>
                        match Instruction_Signatures inst with
                        | [] => Panics
                        | sig0 :: _ =>
                            match Identity_Ed25519_Point
                                    (Signature_Signer sig0) with
                            | None => Panics
                            | Some point =>
                                match withinInterval darcID point with
                                | Some err =>
                                    Returns (mkContractReturn [] cOut (Some err))
                                | None =>
                                    match updateRosterScs cdb darcID newRoster with
                                    | Err err =>
                                        Returns (mkContractReturn [] cOut
                                                   (Some err))
                                    | Ok sc =>
                                        Returns (mkContractReturn sc cOut None)
                                    end
                                end
                            end
                        end
                    end
                end
            end
          else
            Returns (mkContractReturn [] cOut
                       (Some ("invalid invoke command: "
                              ++ Invoke_Command invoke)%string))
      end
  end.

(** [Service.ContractConfig]. *)
Definition ContractConfig (cdb : CollectionView) (inst : Instruction)
    (coins : list Coin) : outcome ContractReturn :=
  match GetType inst with
  | SpawnType => spawnContractConfig inst coins
  | InvokeType => invokeContractConfig cdb inst coins
  | _ =>
      Returns (mkContractReturn [] coins (Some "unsupported instruction type"))
  end.

(** ** The darc contract (contracts.go, lines 261-319) *)

(** The registry [s.contracts] of the service and [Darc.SanityCheck]. *)
Variable contracts :
  string ->
  option (CollectionView -> Instruction -> list Coin -> outcome ContractReturn).
Variable darc_SanityCheck : Darc -> Darc -> option error.

Definition ContractDarc (cdb : CollectionView) (inst : Instruction)
    (coins : list Coin) : outcome ContractReturn :=
  let cOut := coins in
  match Instruction_Spawn inst, Instruction_Invoke inst with
  | Some spawn, _ =>
      if String.eqb (Spawn_ContractID spawn) ContractDarcID then
        let darcBuf := Search (Spawn_Args spawn) "darc" in
        match darc_NewFromProtobuf darcBuf with
        | Err err =>
            Returns (mkContractReturn [] []
                       (Some ("given darc could not be decoded: " ++ err)%string))
        | Ok d =>
            let id := darc_GetBaseID d in
            Returns (mkContractReturn
                       [ NewStateChange Create (InstanceIDFromSlice id)
                           ContractDarcID darcBuf id ]
                       coins None)
        end
      else
        match contracts (Spawn_ContractID spawn) with
        | None =>
            Returns (mkContractReturn [] []
                       (Some "couldn't find this contract type"))
        | Some c => c cdb inst coins
        end
  | None, Some invoke =>
      if String.eqb (Invoke_Command invoke) "evolve" then
        match GetValues cdb (Slice (Instruction_InstanceID inst)) with
        | Err err => Returns (mkContractReturn [] cOut (Some err))
        | Ok (_, _, darcID) =>
            let darcBuf := Search (Invoke_Args invoke) "darc" in
            match darc_NewFromProtobuf darcBuf with
            | Err err => Returns (mkContractReturn [] [] (Some err))
            | Ok newD =>
                match LoadDarcFromColl cdb darcID with
                | Err err => Returns (mkContractReturn [] [] (Some err))
                | Ok oldD =>
                    match darc_SanityCheck newD oldD with
                    | Some err => Returns (mkContractReturn [] [] (Some err))
                    | None =>
                        Returns (mkContractReturn
                                   [ NewStateChange Update
                                       (Instruction_InstanceID inst)
                                       ContractDarcID darcBuf darcID ]
                                   coins None)
                    end
                end
            end
        end
      else
        Returns (mkContractReturn [] []
                   (Some ("invalid command: " ++ Invoke_Command invoke)%string))
  | None, None =>
      Returns (mkContractReturn [] []
                 (Some "Only invoke and spawn are defined yet"))
  end.

(** The same transaction with other signatures: [sigs instr] is written
    into every instruction. *)
Definition resign (sigs : Instruction -> list Signature)
    (ct : ClientTransaction) : ClientTransaction :=
  {| ClientTransaction_Instructions :=
       map (fun instr => set_Signatures instr (sigs instr))
         (ClientTransaction_Instructions ct) |}.

(** The bytes [DeriveID] hashes, as one concatenation. *)
Definition DeriveID_preimage (instr : Instruction) (what : string) : bytes :=
  Hash instr ++ [x00]
    ++ concat (map (fun s => Signature_Signature s ++ [x00])
                 (Instruction_Signatures instr))
    ++ bytes_of_string what ++ [x00].

(** A transaction makes the round trip through the codec. *)
Definition round_trips (t : ClientTransaction) : Prop :=
  exists b, network_Marshal t = Ok b
            /\ network_Unmarshal b = Ok (MsgClientTransaction t).

(** The view [coll] shows the state change [sc] under its key. *)
Definition shows (coll : CollectionView) (sc : StateChange) : Prop :=
  getValueContract coll (StateChange_InstanceID sc)
  = Ok (StateChange_Value sc, StateChange_ContractID sc,
        StateChange_DarcID sc).

End Service.

Arguments Hash sha256_Sum256 {Identity} instr.
Arguments Action {Identity} instr.
Arguments GetType {Identity} instr.
Arguments spec_body {Identity} instr.
Arguments spec_preimage {Identity} instr.
Arguments IsEmpty {Identity} cts.
Arguments ToDarcRequest sha256_Sum256 {Identity Darc}
  darc_NewFromProtobuf darc_GetID instr baseID.
Arguments spawnContractConfig sha256_Sum256 {Identity Darc}
  darc_NewFromProtobuf darc_Rules_len darc_Verify darc_GetBaseID {Roster}
  protobuf_Decode_Roster protobuf_Encode_ChainConfig binary_Varint inst coins.
Arguments newTxBuffer {Identity}.
Arguments take_tx {Identity} r key.
Arguments add_tx {Identity} r key newTx.
Arguments run_call {Identity} r c.
Arguments run_calls {Identity} r cs.
Arguments pending {Identity} key acc cs.
Arguments holds {Identity} r key acc.
Arguments CallAdd {Identity} key newTx.
Arguments CallTake {Identity} key.
Arguments MsgClientTransaction {Identity} ct.
Arguments MsgOther {Identity}.
Arguments marshal_all {Identity} network_Marshal ts.
Arguments unmarshal_all {Identity} network_Unmarshal bs.
Arguments write_back {Identity} ts sortedTs.
Arguments decodes {Identity} network_Unmarshal b.
Arguments sortTransactions sha256_Sum256 {Identity}
  network_Marshal network_Unmarshal sort_Slice ts.

Arguments DeriveID sha256_Sum256 {Identity} instr what.
Arguments DeriveID_preimage sha256_Sum256 {Identity} instr what.
Arguments Instructions_Hash sha256_Sum256 {Identity} instrs.
Arguments ClientTransactions_Hash sha256_Sum256 {Identity} cts.
Arguments set_Signatures {Identity} instr sigs.
Arguments set_Identities {Identity} req ids.
Arguments resign {Identity} sigs ct.
Arguments sign_loop {Identity Signer} Signer_Identity Signer_Sign
  digest signers i sigs.
Arguments SignBy sha256_Sum256 {Identity Darc} darc_NewFromProtobuf darc_GetID
  {Signer} Signer_Identity Signer_Sign Request_Hash Identity_zero
  instr darcID signers.
Arguments GetContractState {Identity CollectionView collection_Record}
  coll_Get_Record Record_Values instr coll.
Arguments LoadConfigFromColl sha256_Sum256 {Roster CollectionView}
  getValueContract protobuf_Decode_ChainConfig coll.
Arguments LoadBlockIntervalFromColl sha256_Sum256 {Roster CollectionView}
  getValueContract protobuf_Decode_ChainConfig defaultInterval coll.
Arguments LoadDarcFromColl {Darc} darc_NewFromProtobuf
  {CollectionView collection_Record} coll_Get_Record Record_Values coll key.
Arguments validRotation {Roster ServerIdentity} Roster_IsRotation Roster_List
  onet_NewRoster Roster_ID_Equal Roster_Aggregate_Equal oldRoster newRoster.
Arguments updateRosterScs sha256_Sum256 {Roster} protobuf_Encode_ChainConfig
  {CollectionView} getValueContract protobuf_Decode_ChainConfig
  cdb darcID newRoster.
Arguments invokeContractConfig sha256_Sum256 {Identity Roster}
  protobuf_Decode_Roster protobuf_Encode_ChainConfig {CollectionView}
  getValueContract GetValues protobuf_Decode_ChainConfig {ServerIdentity}
  Roster_IsRotation Roster_List onet_NewRoster Roster_ID_Equal
  Roster_Aggregate_Equal {Point} withinInterval Identity_Ed25519_Point
  cdb inst coins.
Arguments ContractConfig sha256_Sum256 {Identity Darc} darc_NewFromProtobuf
  darc_Rules_len darc_Verify darc_GetBaseID {Roster} protobuf_Decode_Roster
  protobuf_Encode_ChainConfig binary_Varint {CollectionView} getValueContract
  GetValues protobuf_Decode_ChainConfig {ServerIdentity} Roster_IsRotation
  Roster_List onet_NewRoster Roster_ID_Equal Roster_Aggregate_Equal {Point}
  withinInterval Identity_Ed25519_Point cdb inst coins.
Arguments ContractDarc {Identity Darc} darc_NewFromProtobuf darc_GetBaseID
  {CollectionView collection_Record} coll_Get_Record Record_Values GetValues
  contracts darc_SanityCheck cdb inst coins.
Arguments round_trips {Identity} network_Marshal network_Unmarshal t.
Arguments shows {CollectionView} getValueContract coll sc.

(** ** Stand-ins for the libraries, to run the model on examples *)

(** A 32-byte stand-in for the digest (not SHA-256): the last bytes of the
    message first, zero-padded. *)
Definition example_digest (m : bytes) : bytes :=
  take 32 (rev m ++ make_bytes 32).

(** Insertion sort, a stand-in for [sort.Slice]. *)
Fixpoint example_insert (less : bytes -> bytes -> bool) (x : bytes)
    (l : list bytes) : list bytes :=
  match l with
  | [] => [x]
  | y :: l' => if less x y then x :: y :: l' else y :: example_insert less x l'
  end.

Fixpoint example_sort (less : bytes -> bytes -> bool) (l : list bytes)
  : list bytes :=
  match l with
  | [] => []
  | x :: l' => example_insert less x (example_sort less l')
  end.

(** A transaction with one Delete instruction whose nonce is [n]; the
    stand-in codec writes a transaction as the nonce of its first
    instruction, and refuses the bytes that start with [0xff]. *)
Definition example_instr (n : bytes) : Instruction unit :=
  {| Instruction_InstanceID := zero32
   ; Instruction_Nonce := n
   ; Instruction_Index := 0
   ; Instruction_Length := 1
   ; Instruction_Spawn := None
   ; Instruction_Invoke := None
   ; Instruction_Delete := Some mkDelete
   ; Instruction_Signatures := [] |}.

Definition example_tx (n : bytes) : ClientTransaction unit :=
  {| ClientTransaction_Instructions := [example_instr n] |}.

Definition example_Marshal (t : ClientTransaction unit) : result bytes :=
  match ClientTransaction_Instructions _ t with
  | [] => Err "empty transaction"
  | i :: _ => Ok (Instruction_Nonce _ i)
  end.

Definition example_Unmarshal (b : bytes) : result (Message unit) :=
  match b with
  | xff :: _ => Err "cannot decode"
  | xfe :: _ => Ok MsgOther
  | _ => Ok (MsgClientTransaction (example_tx b))
  end.

(** An Invoke of command [cmd] with the argument [darc]. *)
Definition example_invoke (cmd : string) (darcBuf : bytes) : Instruction unit :=
  {| Instruction_InstanceID := zero32
   ; Instruction_Nonce := zero32
   ; Instruction_Index := 0
   ; Instruction_Length := 1
   ; Instruction_Spawn := None
   ; Instruction_Invoke :=
       Some {| Invoke_Command := cmd
             ; Invoke_Args := [ {| Argument_Name := "darc"
                                 ; Argument_Value := darcBuf |} ] |}
   ; Instruction_Delete := None
   ; Instruction_Signatures := [] |}.

(** An Invoke of the darc contract's [evolve] command. *)
Definition example_evolve (darcBuf : bytes) : Instruction unit :=
  example_invoke CmdDarcEvolve darcBuf.

(** A Spawn of the config contract; the stand-in darc is its own encoding,
    its rules are its bytes, the roster is its encoding, the varint is one
    byte holding twice the value. *)
Definition example_genesis : Instruction unit :=
  {| Instruction_InstanceID := zero32
   ; Instruction_Nonce := zero32
   ; Instruction_Index := 0
   ; Instruction_Length := 1
   ; Instruction_Spawn :=
       Some {| Spawn_ContractID := ContractConfigID
             ; Spawn_Args :=
                 [ {| Argument_Name := "darc"; Argument_Value := [x01; x02] |}
                 ; {| Argument_Name := "block_interval"
                    ; Argument_Value := [x0a] |}
                 ; {| Argument_Name := "roster"; Argument_Value := [x07] |} ] |}
   ; Instruction_Invoke := None
   ; Instruction_Delete := None
   ; Instruction_Signatures := [] |}.

Definition example_NewFromProtobuf (b : bytes) : result bytes :=
  match b with
  | [] => Err "empty darc"
  | _ => Ok b
  end.

Definition example_Varint (b : bytes) : Z * Z :=
  match b with
  | [x] => (Z_of_byte x / 2, 1)
  | _ => (0, 0)
  end.

Definition example_Encode (c : ChainConfig bytes) : result bytes :=
  Ok (byte_of_Z (ChainConfig_BlockInterval _ c) :: ChainConfig_Roster _ c).

(** Stand-ins for the signers: a signer is its key, it signs by putting the
    key before the digest, and the empty key cannot sign; the hash of a
    request covers its base ID, action and message. *)
Definition example_Sign (key digest : bytes) : result bytes :=
  match key with
  | [] => Err "no key"
  | _ => Ok (key ++ digest)
  end.

Definition example_Request_Hash (req : Request bytes) : bytes :=
  example_digest
    (Request_BaseID _ req ++ bytes_of_string (Request_Action _ req)
       ++ Request_Msg _ req ++ concat (Request_Identities _ req)).

(** An Invoke whose signers are keys. *)
Definition example_signed_invoke : Instruction bytes :=
  {| Instruction_InstanceID := zero32
   ; Instruction_Nonce := zero32
   ; Instruction_Index := 0
   ; Instruction_Length := 1
   ; Instruction_Spawn := None
   ; Instruction_Invoke :=
       Some {| Invoke_Command := "update_config"; Invoke_Args := [] |}
   ; Instruction_Delete := None
   ; Instruction_Signatures :=
       [ {| Signature_Signature := [x09]; Signature_Signer := [x0a] |} ] |}.

(** A stand-in for the collection: the list of the state changes stored, a
    key being looked up from the front; a record holds the value and the
    contract of its key. *)
Definition bytes_eqb (a b : bytes) : bool :=
  match bytes_Compare a b with
  | Eq => true
  | _ => false
  end.

Fixpoint example_getValueContract (coll : list StateChange) (key : bytes)
  : result (bytes * bytes * bytes) :=
  match coll with
  | [] => Err "no match found"
  | sc :: rest =>
      if bytes_eqb (StateChange_InstanceID sc) key then
        Ok (StateChange_Value sc, StateChange_ContractID sc,
            StateChange_DarcID sc)
      else example_getValueContract rest key
  end.

Definition example_GetValues (coll : list StateChange) (key : bytes)
  : result (bytes * string * bytes) :=
  match example_getValueContract coll key with
  | Err err => Err err
  | Ok (v, c, d) => Ok (v, string_of_list_byte c, d)
  end.

Definition example_Get_Record (coll : list StateChange) (key : bytes)
  : result (list GoValue) :=
  match example_getValueContract coll key with
  | Err err => Err err
  | Ok (v, c, _) =>
      match v with
      | [] => Ok [ValBytes c]
      | _ => Ok [ValBytes v; ValBytes c]
      end
  end.

Definition example_Decode_ChainConfig (b : bytes) : result (ChainConfig bytes) :=
  match b with
  | [] => Err "empty config"
  | i :: roster => Ok (mkChainConfig bytes (Z_of_byte i) roster)
  end.

(** The three state changes of the genesis of [example_genesis], and a
    darc stored under the key of 32 bytes [0x01]. *)
Definition example_genesis_view : list StateChange :=
  [ mkStateChange Create (replicate 32 x00) (bytes_of_string "config")
      (example_digest [x01; x02]) (example_digest [x01; x02])
  ; mkStateChange Create (example_digest [x01; x02]) (bytes_of_string "darc")
      [x01; x02] (example_digest [x01; x02])
  ; mkStateChange Create
      (example_digest
         (example_digest [x01; x02] ++ [x00] ++ bytes_of_string "config"))
      (bytes_of_string "config") [x05; x07] (example_digest [x01; x02]) ].

(** An Invoke of [cmd] on the instance [iid], signed by one signer. *)
Definition example_invoke_on (iid : bytes) (cmd : string) (args : Arguments)
  : Instruction unit :=
  {| Instruction_InstanceID := iid
   ; Instruction_Nonce := zero32
   ; Instruction_Index := 0
   ; Instruction_Length := 1
   ; Instruction_Spawn := None
   ; Instruction_Invoke :=
       Some {| Invoke_Command := cmd; Invoke_Args := args |}
   ; Instruction_Delete := None
   ; Instruction_Signatures :=
       [ {| Signature_Signature := [x09]; Signature_Signer := tt |} ] |}.

(** The key of the configuration in [example_genesis_view]. *)
Definition example_config_key : bytes :=
  example_digest
    (example_digest [x01; x02] ++ [x00] ++ bytes_of_string "config").

(** A stand-in roster is a list of bytes; a rotation moves the first byte
    to the end. *)
Definition example_IsRotation (old new : bytes) : bool :=
  match old with
  | [] => false
  | x :: rest => bytes_eqb (rest ++ [x]) new
  end.

(** The contracts and the readers on the stand-ins. *)
Definition example_spawn_config
  : Instruction unit -> list Coin -> outcome ContractReturn :=
  spawnContractConfig example_digest example_NewFromProtobuf (@length byte)
    (fun _ _ => None) example_digest (fun b => Ok b) example_Encode
    example_Varint.

Definition example_invoke_config
  : list StateChange -> Instruction unit -> list Coin
    -> outcome ContractReturn :=
  invokeContractConfig example_digest (fun b => Ok b) example_Encode
    example_getValueContract example_GetValues example_Decode_ChainConfig
    example_IsRotation (fun roster : bytes => roster)
    (fun l : list byte => Some l) bytes_eqb
    (fun a b => Returns (bytes_eqb a b)) (fun _ (_ : unit) => None)
    (fun _ : unit => Some tt).

Definition example_contract_config
  : list StateChange -> Instruction unit -> list Coin
    -> outcome ContractReturn :=
  ContractConfig example_digest example_NewFromProtobuf (@length byte)
    (fun _ _ => None) example_digest (fun b => Ok b) example_Encode
    example_Varint example_getValueContract example_GetValues
    example_Decode_ChainConfig example_IsRotation (fun roster : bytes => roster)
    (fun l : list byte => Some l) bytes_eqb
    (fun a b => Returns (bytes_eqb a b)) (fun _ (_ : unit) => None)
    (fun _ : unit => Some tt).

Definition example_load_darc : list StateChange -> bytes -> result bytes :=
  LoadDarcFromColl example_NewFromProtobuf example_Get_Record
    (fun rec : list GoValue => Ok rec).

Definition example_contract_darc
  : list StateChange -> Instruction unit -> list Coin
    -> outcome ContractReturn :=
  ContractDarc example_NewFromProtobuf example_digest example_Get_Record
    (fun rec : list GoValue => Ok rec) example_GetValues (fun _ => None)
    (fun _ _ => None).

(** Instructions on [example_genesis_view]: a change of the configuration,
    a rotation of the roster with and without a signature, the evolution
    of the darc and the Spawn of a darc. *)
Definition example_update_config : Instruction unit :=
  example_invoke_on example_config_key "update_config"
    [mkArgument "config" [x03; x07]].

Definition example_view_change : Instruction unit :=
  example_invoke_on example_config_key "view_change"
    [mkArgument "roster" [x07]].

Definition example_unsigned_view_change : Instruction unit :=
  set_Signatures example_view_change [].

Definition example_evolve_darc : Instruction unit :=
  example_invoke_on (example_digest [x01; x02]) "evolve"
    [mkArgument "darc" [x03; x04]].

Definition example_spawn_darc : Instruction unit :=
  {| Instruction_InstanceID := example_digest [x01; x02]
   ; Instruction_Nonce := zero32
   ; Instruction_Index := 0
   ; Instruction_Length := 1
   ; Instruction_Spawn :=
       Some {| Spawn_ContractID := ContractDarcID
             ; Spawn_Args := [mkArgument "darc" [x03; x04]] |}
   ; Instruction_Invoke := None
   ; Instruction_Delete := None
   ; Instruction_Signatures := [] |}.

(** A view whose only record has a single value. *)
Definition example_short_view : list StateChange :=
  [mkStateChange Create zero32 (bytes_of_string "darc") [] []].

(** * Properties *)

(** ** Identifier constructors *)

Lemma length_zero32 : length zero32 = 32%nat.
Proof. reflexivity. Qed.

Lemma copy_zero32 (b : bytes) : copy zero32 b = take 32 (b ++ zero32).
Proof.
  unfold copy. rewrite length_zero32.
  destruct (Nat.le_gt_cases 32 (length b)) as [Hge | Hlt].
  - rewrite take_app_le by lia.
    rewrite drop_ge by (rewrite length_zero32; lia).
    apply app_nil_r.
  - rewrite take_ge by lia.
    rewrite take_app_ge by lia.
    f_equal.
    unfold zero32, make_bytes.
    rewrite drop_replicate, take_replicate.
    f_equal. lia.
Qed.

Lemma InstanceIDFromSlice_length (b : bytes) :
  length (InstanceIDFromSlice b) = 32%nat.
Proof.
  unfold InstanceIDFromSlice. rewrite copy_zero32.
  rewrite length_take, length_app, length_zero32. lia.
Qed.

Lemma InstanceIDFromSlice_exact (b : bytes) :
  length b = 32%nat -> InstanceIDFromSlice b = b.
Proof.
  intros Hlen. unfold InstanceIDFromSlice. rewrite copy_zero32.
  rewrite take_app_le by lia. apply take_ge. lia.
Qed.

(** C8, as the code has it: [InstanceIDFromSlice b] is [b] truncated to 32
    bytes or padded with zeroes up to 32 bytes, for every [b]; [NewNonce b]
    is [b] itself when [b] has exactly 32 bytes and the all-zero nonce for
    every other length. *)
Theorem identifier_constructors (b : bytes) :
  InstanceIDFromSlice b = take 32 (b ++ replicate 32 x00)
  /\ length (InstanceIDFromSlice b) = 32%nat
  /\ NewNonce b = (if decide (length b = 32%nat) then b else replicate 32 x00).
Proof.
  split; [apply copy_zero32 | split; [apply InstanceIDFromSlice_length |]].
  unfold NewNonce.
  destruct (decide (length b = 32%nat)) as [Heq | Hne].
  - rewrite Heq. simpl. apply (InstanceIDFromSlice_exact b Heq).
  - apply Nat.eqb_neq in Hne. rewrite Hne. reflexivity.
Qed.

(** C8, as the specification states it, fails for nonces: the one-byte
    slice [0x01] is not padded, [NewNonce] answers the all-zero nonce. *)
Lemma NewNonce_does_not_pad :
  NewNonce [x01] <> take 32 ([x01] ++ replicate 32 x00)
  /\ NewNonce [x01] = replicate 32 x00.
Proof. split; [discriminate | reflexivity]. Qed.

(** ** Little-endian encoding *)

Lemma byte_of_Z_mod (v : Z) : byte_of_Z (v mod 256) = byte_of_Z v.
Proof.
  unfold byte_of_Z.
  change 255 with (Z.ones 8).
  rewrite !Z.land_ones by lia.
  change (2 ^ 8) with 256.
  rewrite Z.mod_mod by lia. reflexivity.
Qed.

Lemma PutUint32_little_endian (v : Z) : PutUint32 v = little_endian 4 v.
Proof.
  unfold PutUint32. simpl little_endian.
  rewrite !byte_of_Z_mod.
  rewrite !Z.shiftr_div_pow2 by lia.
  rewrite !Z.div_div by lia.
  reflexivity.
Qed.

Section InstructionProperties.

Variable sha256_Sum256 : bytes -> bytes.
Variable Identity : Type.
Variable Darc : Type.
Variable darc_NewFromProtobuf : bytes -> result Darc.
Variable darc_GetID : Darc -> bytes.

Implicit Types instr : Instruction Identity.

Lemma write_args_spec (h : hash) (args : list Argument) :
  write_args h args = h ++ spec_args args.
Proof.
  revert h. induction args as [| a args IH]; intros h.
  - unfold spec_args. simpl. symmetry. apply app_nil_r.
  - unfold write_args in *. simpl fold_left. rewrite IH.
    unfold Write, spec_args. simpl.
    rewrite <- !app_assoc. reflexivity.
Qed.

(** C1: when exactly one of Spawn, Invoke and Delete is set, the hash is
    SHA-256 of instance id, nonce, index and length as 4-byte
    little-endian numbers, the tag byte 0, 1 or 2, and the body: contract
    id and arguments for Spawn, arguments for Invoke, nothing for
    Delete. *)
Theorem Hash_layout instr :
  GetType instr <> InvalidInstrType ->
  Hash sha256_Sum256 instr = sha256_Sum256 (spec_preimage instr).
Proof.
  intros Hty.
  unfold Hash, spec_preimage, spec_body, u32_le, uint32, Sum.
  rewrite !PutUint32_little_endian.
  unfold GetType in *.
  destruct (Instruction_Spawn _ instr) as [sp |],
           (Instruction_Invoke _ instr) as [inv |],
           (Instruction_Delete _ instr) as [del |];
    try contradiction;
    rewrite write_args_spec; unfold Write, sha256_New, spec_tag, spec_args;
    simpl; rewrite <- ?app_assoc; simpl; rewrite ?app_nil_r; reflexivity.
Qed.

(** ** Actions and darc requests *)

Lemma Action_not_evolve instr : String.eqb (Action instr) "_evolve" = false.
Proof.
  unfold Action.
  destruct (Instruction_Spawn _ instr), (Instruction_Invoke _ instr),
           (Instruction_Delete _ instr); reflexivity.
Qed.

Lemma ToDarcRequest_returns instr (baseID : bytes) :
  ToDarcRequest sha256_Sum256 darc_NewFromProtobuf darc_GetID instr baseID
  = Returns (Ok (InitRequest _ baseID (Action instr)
                   (Hash sha256_Sum256 instr)
                   (map (Signature_Signer _) (Instruction_Signatures _ instr))
                   (map (Signature_Signature _)
                      (Instruction_Signatures _ instr)))).
Proof. unfold ToDarcRequest. rewrite Action_not_evolve. reflexivity. Qed.


Lemma append_inj_prefix (p s t : string) : (p ++ s)%string = (p ++ t)%string -> s = t.
Proof. induction p as [| c p IH]; simpl; intros H; [exact H | injection H; auto]. Qed.

(** C3: two Invoke instructions with the same instance id, nonce, index,
    length and arguments and different commands have the same hash and
    different actions, and so do the darc requests built from them. *)
Theorem Hash_ignores_Command instr1 instr2 (inv1 inv2 : Invoke)
    (baseID : bytes) :
  GetType instr1 = InvokeType ->
  GetType instr2 = InvokeType ->
  Instruction_Invoke _ instr1 = Some inv1 ->
  Instruction_Invoke _ instr2 = Some inv2 ->
  Instruction_InstanceID _ instr1 = Instruction_InstanceID _ instr2 ->
  Instruction_Nonce _ instr1 = Instruction_Nonce _ instr2 ->
  Instruction_Index _ instr1 = Instruction_Index _ instr2 ->
  Instruction_Length _ instr1 = Instruction_Length _ instr2 ->
  Invoke_Args inv1 = Invoke_Args inv2 ->
  Invoke_Command inv1 <> Invoke_Command inv2 ->
  Hash sha256_Sum256 instr1 = Hash sha256_Sum256 instr2
  /\ Action instr1 <> Action instr2
  /\ exists req1 req2,
       ToDarcRequest sha256_Sum256 darc_NewFromProtobuf darc_GetID
         instr1 baseID = Returns (Ok req1)
       /\ ToDarcRequest sha256_Sum256 darc_NewFromProtobuf darc_GetID
            instr2 baseID = Returns (Ok req2)
       /\ Request_Action _ req1 <> Request_Action _ req2
       /\ Request_Msg _ req1 = Request_Msg _ req2.
Proof.
  intros Ht1 Ht2 Hi1 Hi2 Hid Hnonce Hidx Hlen Hargs Hcmd.
  assert (Hact : Action instr1 <> Action instr2).
  { unfold Action, GetType in *. rewrite Hi1, Hi2 in *.
    destruct (Instruction_Spawn _ instr1); [discriminate |].
    destruct (Instruction_Spawn _ instr2); [discriminate |].
    intros Heq. apply append_inj_prefix in Heq. contradiction. }
  assert (Hhash : Hash sha256_Sum256 instr1 = Hash sha256_Sum256 instr2).
  { unfold Hash, GetType in *. rewrite Hi1, Hi2 in *.
    destruct (Instruction_Spawn _ instr1); [discriminate |].
    destruct (Instruction_Spawn _ instr2); [discriminate |].
    rewrite Hid, Hnonce, Hidx, Hlen, Hargs. reflexivity. }
  split; [exact Hhash | split; [exact Hact |]].
  do 2 eexists.
  split; [apply ToDarcRequest_returns |].
  split; [apply ToDarcRequest_returns |].
  split; [exact Hact | exact Hhash].
Qed.

(** ** Empty batches *)

(** C10: [IsEmpty] answers [true] exactly when every transaction of the
    list has no instruction; a list of any length whose transactions all
    have no instruction is reported as empty. *)
Theorem IsEmpty_iff_no_instruction (cts : ClientTransactions Identity) :
  (IsEmpty cts = true <->
   Forall (fun ct => ClientTransaction_Instructions _ ct = []) cts)
  /\ forall n : nat,
       IsEmpty (replicate (S n) (mkClientTransaction Identity [])) = true.
Proof.
  split.
  - induction cts as [| ct cts IH]; simpl.
    + split; [constructor | reflexivity].
    + destruct (ClientTransaction_Instructions _ ct) as [| i rest] eqn:Hct.
      * rewrite IH. split; intros H.
        -- constructor; assumption.
        -- inversion H; assumption.
      * split; [discriminate |]. intros H. inversion H. congruence.
  - intros n. induction n as [| n IH]; [reflexivity | exact IH].
Qed.

End InstructionProperties.

(** ** Genesis state changes of the config contract *)

Section ConfigProperties.

Variable sha256_Sum256 : bytes -> bytes.
Hypothesis sha256_size : forall m, length (sha256_Sum256 m) = 32%nat.

Variable Identity : Type.
Variable Darc : Type.
Variable darc_NewFromProtobuf : bytes -> result Darc.
Variable darc_Rules_len : Darc -> nat.
Variable darc_Verify : Darc -> bool -> option error.
Variable darc_GetBaseID : Darc -> bytes.
Variable Roster : Type.
Variable protobuf_Decode_Roster : bytes -> result Roster.
Variable protobuf_Encode_ChainConfig : ChainConfig Roster -> result bytes.
Variable binary_Varint : bytes -> Z * Z.

Lemma DeriveConfigID_digest (id : bytes) :
  DeriveConfigID sha256_Sum256 id
  = sha256_Sum256 (id ++ [x00] ++ bytes_of_string "config").
Proof using sha256_size.
  unfold DeriveConfigID, Sum, Write, sha256_New.
  rewrite InstanceIDFromSlice_exact by apply sha256_size.
  simpl. rewrite <- app_assoc. reflexivity.
Qed.

(** C4: a Spawn whose [darc] argument decodes to a darc with rules that
    passes [Verify(true)], whose [block_interval] is a varint above zero
    and whose [roster] decodes, the configuration being encoded as
    [configBuf], yields exactly three Create state changes, in this
    order: the all-zero genesis reference with the base ID as value, the
    darc under the instance ID of its base ID, and the encoded
    configuration under SHA-256(base ID, 0x00, "config"); the contracts
    are config, darc, config and the darc ID is the base ID in all
    three.  The coins are handed back and no error is returned. *)
Theorem spawnContractConfig_genesis (inst : Instruction Identity)
    (coins : list Coin) (spawn : Spawn) (d : Darc) (roster : Roster)
    (configBuf : bytes) :
  let darcBuf := Search (Spawn_Args spawn) "darc" in
  let interval := fst (binary_Varint (Search (Spawn_Args spawn) "block_interval")) in
  let id := darc_GetBaseID d in
  Instruction_Spawn _ inst = Some spawn ->
  darc_NewFromProtobuf darcBuf = Ok d ->
  darc_Rules_len d <> 0%nat ->
  darc_Verify d true = None ->
  0 < interval ->
  protobuf_Decode_Roster (Search (Spawn_Args spawn) "roster") = Ok roster ->
  protobuf_Encode_ChainConfig (mkChainConfig _ interval roster) = Ok configBuf ->
  spawnContractConfig sha256_Sum256 darc_NewFromProtobuf darc_Rules_len
    darc_Verify darc_GetBaseID protobuf_Decode_Roster
    protobuf_Encode_ChainConfig binary_Varint inst coins
  = Returns
      {| ret_sc :=
           [ mkStateChange Create (replicate 32 x00)
               (bytes_of_string "config") id id
           ; mkStateChange Create (InstanceIDFromSlice id)
               (bytes_of_string "darc") darcBuf id
           ; mkStateChange Create
               (sha256_Sum256 (id ++ [x00] ++ bytes_of_string "config"))
               (bytes_of_string "config") configBuf id ]
       ; ret_c := coins
       ; ret_err := None |}.
Proof using sha256_size.
  intros darcBuf interval id Hspawn Hdarc Hrules Hverify Hinterval Hroster
    Hencode.
  unfold spawnContractConfig.
  rewrite Hspawn. fold darcBuf. rewrite Hdarc.
  apply Nat.eqb_neq in Hrules. rewrite Hrules.
  rewrite Hverify. fold interval.
  assert (Hpos : (interval <=? 0)%Z = false) by (apply Z.leb_gt; exact Hinterval).
  rewrite Hpos, Hroster, Hencode.
  fold id. rewrite <- DeriveConfigID_digest.
  reflexivity.
Qed.

End ConfigProperties.

(** ** The transaction buffer *)

Section BufferProperties.

Variable Identity : Type.

Implicit Types (r : txBuffer Identity) (cs : list (txCall Identity)).
Implicit Types (acc : list (ClientTransaction Identity)) (key : string).

Lemma holds_run_call r key acc (c : txCall Identity) :
  holds r key acc -> holds (run_call r c) key (pending key acc [c]).
Proof.
  unfold holds. intros Hr.
  destruct c as [k newTx | k]; simpl;
    destruct (String.eqb_spec k key) as [-> | Hne].
  - unfold add_tx. rewrite Hr.
    destruct acc as [| t acc]; simpl; rewrite lookup_insert_eq; reflexivity.
  - unfold add_tx.
    destruct (txsMap _ r !! k); simpl; rewrite lookup_insert_ne by exact Hne;
      exact Hr.
  - unfold take_tx. rewrite Hr.
    destruct acc as [| t acc]; simpl; [exact Hr | apply lookup_delete_eq].
  - unfold take_tx.
    destruct (txsMap _ r !! k); simpl; [| exact Hr].
    rewrite lookup_delete_ne by exact Hne. exact Hr.
Qed.

Lemma pending_cons key acc (c : txCall Identity) cs :
  pending key acc (c :: cs) = pending key (pending key acc [c]) cs.
Proof.
  destruct c as [k newTx | k]; simpl; destruct (String.eqb k key); reflexivity.
Qed.

Lemma holds_run_calls cs r key acc :
  holds r key acc -> holds (run_calls r cs) key (pending key acc cs).
Proof.
  revert r acc. induction cs as [| c cs IH]; intros r acc Hr.
  - exact Hr.
  - rewrite pending_cons. unfold run_calls. simpl fold_left.
    apply IH, holds_run_call, Hr.
Qed.

Lemma pending_never_added key acc cs :
  Forall (fun c => forall newTx, c <> CallAdd key newTx) cs ->
  pending key acc cs = acc \/ pending key acc cs = [].
Proof.
  intros Hcs. revert acc. induction Hcs as [| c cs Hc _ IH]; intros acc.
  - left. reflexivity.
  - destruct c as [k newTx | k]; simpl;
      destruct (String.eqb_spec k key) as [-> | Hne].
    + exfalso. apply (Hc newTx). reflexivity.
    + apply IH.
    + right. destruct (IH []) as [H | H]; exact H.
    + apply IH.
Qed.

(** C9: after any history of [add] and [take] calls on a new buffer,
    [take key] returns the transactions added for [key] since its last
    [take], in the order of the [add] calls, as a slice that is not nil,
    and leaves the map without [key]; a [take key] right after it returns
    the empty slice that is not nil and changes nothing; and so does a
    [take] of a key for which the history has no [add]. *)
Theorem take_returns_pending cs key :
  let r := run_calls newTxBuffer cs in
  take_tx r key
  = (slice_of (pending key [] cs), mkTxBuffer _ (delete key (txsMap _ r)))
  /\ take_tx (snd (take_tx r key)) key = (slice_of [], snd (take_tx r key))
  /\ (Forall (fun c => forall newTx, c <> CallAdd key newTx) cs ->
      fst (take_tx r key) = slice_of []).
Proof.
  intros r.
  assert (Hr : holds r key (pending key [] cs)).
  { apply holds_run_calls. unfold holds. simpl. apply lookup_empty. }
  assert (Htake : take_tx r key
    = (slice_of (pending key [] cs), mkTxBuffer _ (delete key (txsMap _ r)))).
  { unfold holds in Hr. unfold take_tx. rewrite Hr.
    destruct (pending key [] cs) as [| t ts]; [| reflexivity].
    rewrite delete_id by exact Hr. destruct r; reflexivity. }
  split; [exact Htake | split].
  - rewrite Htake. simpl. unfold take_tx at 1. simpl.
    rewrite lookup_delete_eq. reflexivity.
  - intros Hcs. rewrite Htake. simpl.
    destruct (pending_never_added key [] cs Hcs) as [H | H]; rewrite H;
      reflexivity.
Qed.

End BufferProperties.

(** ** The lexicographic order on byte slices *)

Lemma bytes_Compare_antisym (a b : bytes) :
  bytes_Compare b a = CompOpp (bytes_Compare a b).
Proof.
  revert b. induction a as [| x a IH]; intros [| y b]; simpl; try reflexivity.
  rewrite (Z.compare_antisym (Z_of_byte x) (Z_of_byte y)).
  destruct (Z_of_byte x ?= Z_of_byte y); simpl; auto.
Qed.

Lemma bytes_Compare_not_Lt_trans (a b c : bytes) :
  bytes_Compare a b <> Lt -> bytes_Compare b c <> Lt -> bytes_Compare a c <> Lt.
Proof.
  revert b c. induction a as [| x a IH]; intros [| y b] [| z c]; simpl;
    try congruence.
  destruct (Z.compare_spec (Z_of_byte x) (Z_of_byte y)) as [Hxy | Hxy | Hxy];
    destruct (Z.compare_spec (Z_of_byte y) (Z_of_byte z)) as [Hyz | Hyz | Hyz];
    destruct (Z.compare_spec (Z_of_byte x) (Z_of_byte z)) as [Hxz | Hxz | Hxz];
    try congruence; try lia.
  apply IH.
Qed.

(** ** Insertion sort keeps the promise of [sort.Slice] *)

Lemma example_insert_perm less (x : bytes) (l : list bytes) :
  Permutation (example_insert less x l) (x :: l).
Proof.
  induction l as [| y l IH]; simpl; [reflexivity |].
  destruct (less x y); [reflexivity |].
  rewrite IH. apply perm_swap.
Qed.

Lemma example_sort_perm less (l : list bytes) :
  Permutation (example_sort less l) l.
Proof.
  induction l as [| x l IH]; simpl; [reflexivity |].
  rewrite example_insert_perm. apply perm_skip, IH.
Qed.

Lemma example_insert_sorted less (x : bytes) (l : list bytes) :
  strict_weak less ->
  StronglySorted (fun a b => less b a = false) l ->
  StronglySorted (fun a b => less b a = false) (example_insert less x l).
Proof.
  intros [Hasym Htrans] Hl. induction Hl as [| y l Hl IH Hy]; simpl.
  - repeat constructor.
  - destruct (less x y) eqn:Hxy.
    + constructor; [constructor; assumption |].
      constructor; [apply Hasym, Hxy |].
      eapply Forall_impl; [exact Hy |].
      intros z Hz. simpl in Hz. eapply Htrans; [exact Hz | apply Hasym, Hxy].
    + constructor; [exact IH |].
      eapply Permutation_Forall;
        [symmetry; apply example_insert_perm |].
      constructor; assumption.
Qed.

Lemma example_sort_contract : sort_contract example_sort.
Proof.
  intros less l. split; [apply example_sort_perm |].
  intros Hless. induction l as [| x l IH]; simpl; [constructor |].
  apply example_insert_sorted; assumption.
Qed.

Lemma example_digest_size (m : bytes) : length (example_digest m) = 32%nat.
Proof.
  unfold example_digest, make_bytes.
  rewrite length_take, length_app, length_replicate. lia.
Qed.

(** ** Ordering of a batch *)

Section OrderingProperties.

Variable sha256_Sum256 : bytes -> bytes.
Hypothesis sha256_size : forall m, length (sha256_Sum256 m) = 32%nat.

Variable Identity : Type.
Variable network_Marshal : ClientTransaction Identity -> result bytes.
Variable network_Unmarshal : bytes -> result (Message Identity).
Variable sort_Slice : (bytes -> bytes -> bool) -> list bytes -> list bytes.
Hypothesis sort_Slice_contract : sort_contract sort_Slice.

Local Abbreviation encodes_to :=
  (Forall2 (fun t b => network_Marshal t = Ok b)).
Local Abbreviation decodes_to :=
  (Forall2 (fun b ct => network_Unmarshal b = Ok (MsgClientTransaction ct))).

Lemma salted_less_strict_weak (salt : bytes) :
  strict_weak (salted_less sha256_Sum256 salt).
Proof.
  unfold strict_weak, salted_less. split.
  - intros a b.
    rewrite (bytes_Compare_antisym (sha256_Sum256 (salt ++ a))
               (sha256_Sum256 (salt ++ b))).
    destruct (bytes_Compare _ _); simpl; congruence.
  - intros a b c Hab Hbc.
    pose proof (bytes_Compare_not_Lt_trans
                  (sha256_Sum256 (salt ++ a)) (sha256_Sum256 (salt ++ b))
                  (sha256_Sum256 (salt ++ c))) as Htrans.
    destruct (bytes_Compare (sha256_Sum256 (salt ++ a))
                (sha256_Sum256 (salt ++ b))); try discriminate;
      destruct (bytes_Compare (sha256_Sum256 (salt ++ b))
                  (sha256_Sum256 (salt ++ c))); try discriminate;
      destruct (bytes_Compare (sha256_Sum256 (salt ++ a))
                  (sha256_Sum256 (salt ++ c))); try reflexivity;
      exfalso; apply Htrans; congruence.
Qed.

Lemma salted_less_false_le (salt a b : bytes) :
  salted_less sha256_Sum256 salt b a = false ->
  bytes_le (spec_key sha256_Sum256 salt a) (spec_key sha256_Sum256 salt b).
Proof.
  unfold salted_less, bytes_le, spec_key. intros Hless.
  rewrite (bytes_Compare_antisym (sha256_Sum256 (salt ++ b))
             (sha256_Sum256 (salt ++ a))).
  destruct (bytes_Compare (sha256_Sum256 (salt ++ b))
              (sha256_Sum256 (salt ++ a))); simpl; congruence.
Qed.

Lemma xor_into_zip (result hs : bytes) :
  (length result <= length hs)%nat ->
  xor_into result hs = bytes_xor result hs.
Proof.
  unfold xor_into, bytes_xor.
  revert hs. induction result as [| r result IH]; intros hs Hlen;
    [reflexivity |].
  destruct hs as [| h hs]; simpl in Hlen; [lia |].
  simpl. f_equal. apply IH. lia.
Qed.

Lemma xorTransactions_salt (bs : list bytes) :
  xorTransactions sha256_Sum256 bs = spec_salt sha256_Sum256 bs.
Proof using sha256_size.
  unfold xorTransactions, spec_salt.
  change (make_bytes 32) with zero32.
  assert (Hlen : length zero32 = 32%nat) by reflexivity.
  revert Hlen. generalize zero32 as acc.
  induction bs as [| b bs IH]; intros acc Hacc; [reflexivity |].
  simpl. rewrite xor_into_zip by (rewrite sha256_size; lia).
  apply IH. unfold bytes_xor.
  rewrite length_zip_with, sha256_size. lia.
Qed.

Lemma marshal_all_Ok ts bs : encodes_to ts bs -> marshal_all network_Marshal ts = Ok bs.
Proof.
  induction 1 as [| t b ts bs Ht _ IH]; simpl; [reflexivity |].
  rewrite Ht, IH. reflexivity.
Qed.

Lemma marshal_all_Err ts :
  Exists (fun t => exists err, network_Marshal t = Err err) ts ->
  exists err, marshal_all network_Marshal ts = Err err.
Proof.
  induction 1 as [t ts [err Ht] | t ts _ [err IH]]; simpl.
  - rewrite Ht. eauto.
  - destruct (network_Marshal t) as [b | err']; [| eauto].
    rewrite IH. eauto.
Qed.

Lemma unmarshal_all_Ok bs :
  Forall (decodes network_Unmarshal) bs ->
  exists cts, unmarshal_all network_Unmarshal bs = Ok cts /\ decodes_to bs cts.
Proof.
  induction 1 as [| b bs [ct Hb] _ [cts [IH Hcts]]]; simpl.
  - exists []. split; [reflexivity | constructor].
  - rewrite Hb, IH. exists (ct :: cts). split; [reflexivity |].
    constructor; assumption.
Qed.

(** The error of a batch in which some encoded transaction does not
    decode is the error of one such transaction. *)
Lemma unmarshal_all_Err bs :
  Exists (fun b => ~ decodes network_Unmarshal b) bs ->
  exists b err,
    In b bs /\ ~ decodes network_Unmarshal b
    /\ (network_Unmarshal b = Err err
        \/ network_Unmarshal b = Ok MsgOther /\ err = "Data of wrong type")
    /\ unmarshal_all network_Unmarshal bs = Err err.
Proof.
  induction bs as [| b bs IH]; intros Hex; [inversion Hex |].
  simpl. destruct (network_Unmarshal b) as [[ct |] | err] eqn:Hb.
  - assert (Hrest : Exists (fun b => ~ decodes network_Unmarshal b) bs).
    { inversion Hex as [? ? Hnot | ? ? Hrest]; subst; [| exact Hrest].
      exfalso. apply Hnot. exists ct. exact Hb. }
    destruct (IH Hrest) as (b' & err & Hin & Hnot & Hwhy & Herr).
    exists b', err. rewrite Herr. repeat split; auto.
  - exists b, "Data of wrong type". repeat split; auto.
    intros [ct Hct]. congruence.
  - exists b, err. repeat split; auto.
    intros [ct Hct]. congruence.
Qed.

Lemma write_back_all (ts sortedTs : list (ClientTransaction Identity)) :
  length ts = length sortedTs -> write_back ts sortedTs = sortedTs.
Proof.
  revert sortedTs. induction ts as [| t ts IH]; intros [| s sortedTs] Hlen;
    simpl in *; try lia; [reflexivity |].
  f_equal. apply IH. lia.
Qed.

Lemma StronglySorted_impl {A : Type} (R S : A -> A -> Prop) (l : list A) :
  (forall a b, R a b -> S a b) -> StronglySorted R l -> StronglySorted S l.
Proof.
  intros HRS. induction 1 as [| a l _ IH Ha]; constructor; [exact IH |].
  eapply Forall_impl; [exact Ha | intros b; apply HRS].
Qed.

(** C5: when every transaction of the batch encodes and every encoding
    decodes, [sortTransactions] returns no error and leaves in the slice
    the decoded transactions of a rearrangement of the encodings [bs]
    that ascends in the lexicographic order of SHA-256(salt, b), where
    salt is the XOR of SHA-256(b) over all encodings. *)
Theorem sortTransactions_order ts bs :
  encodes_to ts bs ->
  Forall (decodes network_Unmarshal) bs ->
  let salt := spec_salt sha256_Sum256 bs in
  exists sorted cts,
    Permutation sorted bs
    /\ StronglySorted
         (fun a b => bytes_le (spec_key sha256_Sum256 salt a)
                       (spec_key sha256_Sum256 salt b)) sorted
    /\ decodes_to sorted cts
    /\ sortTransactions sha256_Sum256 network_Marshal network_Unmarshal
         sort_Slice ts = (cts, None).
Proof using sha256_size sort_Slice_contract.
  intros Henc Hdec salt.
  destruct (sort_Slice_contract (salted_less sha256_Sum256 salt) bs)
    as [Hperm Hsorted].
  specialize (Hsorted (salted_less_strict_weak salt)).
  set (sorted := sort_Slice (salted_less sha256_Sum256 salt) bs) in *.
  assert (Hdec' : Forall (decodes network_Unmarshal) sorted).
  { eapply Permutation_Forall; [symmetry; exact Hperm | exact Hdec]. }
  destruct (unmarshal_all_Ok sorted Hdec') as [cts [Hcts Hto]].
  exists sorted, cts.
  split; [exact Hperm | split; [| split; [exact Hto |]]].
  - eapply StronglySorted_impl; [| exact Hsorted].
    intros a b. apply salted_less_false_le.
  - unfold sortTransactions, sortWithSalt.
    rewrite (marshal_all_Ok ts bs Henc), xorTransactions_salt.
    fold salt. fold sorted. rewrite Hcts.
    rewrite write_back_all; [reflexivity |].
    rewrite (Forall2_length _ _ _ Henc), <- (Forall2_length _ _ _ Hto).
    symmetry. apply Permutation_length, Hperm.
Qed.

(** C6: when some transaction of the batch does not encode, or all encode
    and some encoding does not decode, [sortTransactions] returns an
    error and the slice holds the same transactions in the same order as
    before the call. *)
Theorem sortTransactions_failure_keeps_slice ts :
  Exists (fun t => exists err, network_Marshal t = Err err) ts
  \/ (exists bs, encodes_to ts bs
                 /\ Exists (fun b => ~ decodes network_Unmarshal b) bs) ->
  exists err,
    sortTransactions sha256_Sum256 network_Marshal network_Unmarshal
      sort_Slice ts = (ts, Some err).
Proof using sort_Slice_contract.
  intros [Henc | [bs [Henc Hdec]]]; unfold sortTransactions.
  - destruct (marshal_all_Err ts Henc) as [err Herr].
    rewrite Herr. eauto.
  - rewrite (marshal_all_Ok ts bs Henc). unfold sortWithSalt.
    set (salt := xorTransactions sha256_Sum256 bs).
    destruct (sort_Slice_contract (salted_less sha256_Sum256 salt) bs)
      as [Hperm _].
    assert (Hex : Exists (fun b => ~ decodes network_Unmarshal b)
                    (sort_Slice (salted_less sha256_Sum256 salt) bs)).
    { eapply Permutation_Exists; [symmetry; exact Hperm | exact Hdec]. }
    destruct (unmarshal_all_Err _ Hex) as (b & err & _ & _ & _ & Herr).
    rewrite Herr. eauto.
Qed.

(** C7, as the code has it: when every transaction encodes and some
    encoding does not decode, the whole ordering stops with the error of
    one encoding of the batch that does not decode (its decoding error,
    or "Data of wrong type"); no transaction is dropped and none is
    reordered, the slice is as it was. *)
Theorem sortTransactions_decode_error_aborts ts bs :
  encodes_to ts bs ->
  Exists (fun b => ~ decodes network_Unmarshal b) bs ->
  exists b err,
    In b bs /\ ~ decodes network_Unmarshal b
    /\ (network_Unmarshal b = Err err
        \/ network_Unmarshal b = Ok MsgOther /\ err = "Data of wrong type")
    /\ sortTransactions sha256_Sum256 network_Marshal network_Unmarshal
         sort_Slice ts = (ts, Some err).
Proof using sort_Slice_contract.
  intros Henc Hdec. unfold sortTransactions, sortWithSalt.
  rewrite (marshal_all_Ok ts bs Henc).
  set (salt := xorTransactions sha256_Sum256 bs).
  destruct (sort_Slice_contract (salted_less sha256_Sum256 salt) bs)
    as [Hperm _].
  assert (Hex : Exists (fun b => ~ decodes network_Unmarshal b)
                  (sort_Slice (salted_less sha256_Sum256 salt) bs)).
  { eapply Permutation_Exists; [symmetry; exact Hperm | exact Hdec]. }
  destruct (unmarshal_all_Err _ Hex) as (b & err & Hin & Hnot & Hwhy & Herr).
  exists b, err. rewrite Herr.
  split; [eapply Permutation_in; [exact Hperm | exact Hin] |].
  split; [exact Hnot | split; [exact Hwhy | reflexivity]].
Qed.

End OrderingProperties.

(** * The properties at work on examples *)

Lemma Hash_layout_witness :
  GetType example_genesis <> InvalidInstrType
  /\ Hash example_digest example_genesis
     = example_digest (spec_preimage example_genesis).
Proof.
  split; [vm_compute; discriminate |].
  apply (Hash_layout example_digest unit example_genesis).
  vm_compute; discriminate.
Defined.

(** C2 at an Invoke of [evolve] that carries a darc: the action is
    [invoke:evolve] and the message is the hash of the instruction,
    whatever the darc library decodes from the argument. *)
Example ToDarcRequest_of_evolve (Darc : Type)
    (darc_NewFromProtobuf : bytes -> result Darc) (darc_GetID : Darc -> bytes) :
  ToDarcRequest example_digest darc_NewFromProtobuf darc_GetID
    (example_evolve [x01; x02]) [x09]
  = Returns (Ok (InitRequest unit [x09] "invoke:evolve"
                   (Hash example_digest (example_evolve [x01; x02])) [] [])).
Proof. reflexivity. Qed.

Lemma Hash_ignores_Command_witness :
  Hash example_digest (example_invoke "evolve" [x01])
  = Hash example_digest (example_invoke "update_config" [x01])
  /\ Action (example_invoke "evolve" [x01])
     <> Action (example_invoke "update_config" [x01]).
Proof.
  pose proof (Hash_ignores_Command example_digest unit bytes
                example_NewFromProtobuf example_digest
                (example_invoke "evolve" [x01])
                (example_invoke "update_config" [x01])
                (mkInvoke "evolve" [mkArgument "darc" [x01]])
                (mkInvoke "update_config" [mkArgument "darc" [x01]])
                [x09]) as H.
  destruct H as [Hhash [Haction _]];
    try reflexivity; [vm_compute; discriminate | split; assumption].
Defined.

Lemma spawnContractConfig_genesis_witness :
  spawnContractConfig example_digest example_NewFromProtobuf (@length byte)
    (fun _ _ => None) example_digest (fun b => Ok b) example_Encode
    example_Varint example_genesis [mkCoin zero32 7]
  = Returns
      {| ret_sc :=
           [ mkStateChange Create (replicate 32 x00)
               (bytes_of_string "config") (example_digest [x01; x02])
               (example_digest [x01; x02])
           ; mkStateChange Create (example_digest [x01; x02])
               (bytes_of_string "darc") [x01; x02] (example_digest [x01; x02])
           ; mkStateChange Create
               (example_digest
                  (example_digest [x01; x02] ++ [x00]
                     ++ bytes_of_string "config"))
               (bytes_of_string "config") [x05; x07]
               (example_digest [x01; x02]) ]
       ; ret_c := [mkCoin zero32 7]
       ; ret_err := None |}.
Proof.
  rewrite <- (InstanceIDFromSlice_exact (example_digest [x01; x02]))
    at 3 by reflexivity.
  apply (spawnContractConfig_genesis example_digest example_digest_size unit
           bytes example_NewFromProtobuf (@length byte) (fun _ _ => None)
           example_digest bytes (fun b => Ok b) example_Encode example_Varint
           example_genesis [mkCoin zero32 7]
           (mkSpawn ContractConfigID
              [ mkArgument "darc" [x01; x02]
              ; mkArgument "block_interval" [x0a]
              ; mkArgument "roster" [x07] ])
           [x01; x02] [x07] [x05; x07]);
    try reflexivity.
  vm_compute; discriminate.
Defined.

Lemma sortTransactions_order_witness :
  exists sorted cts,
    Permutation sorted [[x03]; [x01]; [x02]]
    /\ StronglySorted
         (fun a b =>
            bytes_le
              (spec_key example_digest
                 (spec_salt example_digest [[x03]; [x01]; [x02]]) a)
              (spec_key example_digest
                 (spec_salt example_digest [[x03]; [x01]; [x02]]) b)) sorted
    /\ Forall2
         (fun b ct => example_Unmarshal b = Ok (MsgClientTransaction ct))
         sorted cts
    /\ sortTransactions example_digest example_Marshal example_Unmarshal
         example_sort [example_tx [x03]; example_tx [x01]; example_tx [x02]]
       = (cts, None).
Proof.
  apply (sortTransactions_order example_digest example_digest_size unit
           example_Marshal example_Unmarshal example_sort example_sort_contract
           [example_tx [x03]; example_tx [x01]; example_tx [x02]]
           [[x03]; [x01]; [x02]]).
  - repeat constructor.
  - repeat constructor; eexists; reflexivity.
Defined.

Lemma sortTransactions_failure_keeps_slice_witness :
  exists err,
    sortTransactions example_digest example_Marshal example_Unmarshal
      example_sort [example_tx [x03]; example_tx [xff]; example_tx [x01]]
    = ([example_tx [x03]; example_tx [xff]; example_tx [x01]], Some err).
Proof.
  apply (sortTransactions_failure_keeps_slice example_digest unit
           example_Marshal example_Unmarshal example_sort example_sort_contract
           [example_tx [x03]; example_tx [xff]; example_tx [x01]]).
  right. exists [[x03]; [xff]; [x01]]. split.
  - repeat constructor.
  - apply Exists_cons_tl, Exists_cons_hd.
    intros [ct Hct]. vm_compute in Hct. discriminate Hct.
Defined.

Lemma sortTransactions_decode_error_aborts_witness :
  exists b err,
    In b [[x03]; [xfe]; [x01]] /\ ~ decodes example_Unmarshal b
    /\ (example_Unmarshal b = Err err
        \/ example_Unmarshal b = Ok MsgOther /\ err = "Data of wrong type")
    /\ sortTransactions example_digest example_Marshal example_Unmarshal
         example_sort [example_tx [x03]; example_tx [xfe]; example_tx [x01]]
       = ([example_tx [x03]; example_tx [xfe]; example_tx [x01]], Some err).
Proof.
  apply (sortTransactions_decode_error_aborts example_digest unit
           example_Marshal example_Unmarshal example_sort example_sort_contract
           [example_tx [x03]; example_tx [xfe]; example_tx [x01]]
           [[x03]; [xfe]; [x01]]).
  - repeat constructor.
  - apply Exists_cons_tl, Exists_cons_hd.
    intros [ct Hct]. vm_compute in Hct. discriminate Hct.
Defined.

(** C7, as the specification states it, fails: in the batch of the encodings
    [03], [ff], [01] the second does not decode; no ordering is returned,
    neither of all three nor of the other two, the call ends with the
    decoding error and the slice as it was, while the other two alone are
    put in the order [01], [03]. *)
Lemma sortTransactions_orders_nothing_on_decode_error :
  ~ decodes example_Unmarshal [xff]
  /\ sortTransactions example_digest example_Marshal example_Unmarshal
       example_sort [example_tx [x03]; example_tx [xff]; example_tx [x01]]
     = ([example_tx [x03]; example_tx [xff]; example_tx [x01]],
        Some "cannot decode")
  /\ ~ (exists ordered,
          sortTransactions example_digest example_Marshal example_Unmarshal
            example_sort [example_tx [x03]; example_tx [xff]; example_tx [x01]]
          = (ordered, None))
  /\ sortTransactions example_digest example_Marshal example_Unmarshal
       example_sort [example_tx [x03]; example_tx [x01]]
     = ([example_tx [x01]; example_tx [x03]], None).
Proof.
  split; [intros [ct Hct]; vm_compute in Hct; discriminate Hct |].
  split; [reflexivity |].
  split; [| reflexivity].
  intros [ordered H]. vm_compute in H. discriminate H.
Qed.

Lemma take_returns_pending_witness :
  fst (take_tx
         (run_calls newTxBuffer
            [ CallAdd "chain1" (example_tx [x01]); CallTake "chain2"
            ; CallAdd "chain1" (example_tx [x02]) ])
         "chain3")
  = slice_of []
  /\ fst (take_tx
            (run_calls newTxBuffer
               [ CallAdd "chain1" (example_tx [x01]); CallTake "chain2"
               ; CallAdd "chain1" (example_tx [x02]) ])
            "chain1")
     = slice_of [example_tx [x01]; example_tx [x02]].
Proof.
  split.
  - apply (take_returns_pending unit
             [ CallAdd "chain1" (example_tx [x01]); CallTake "chain2"
             ; CallAdd "chain1" (example_tx [x02]) ] "chain3").
    repeat constructor; intros newTx H; discriminate H.
  - rewrite (proj1 (take_returns_pending unit
                      [ CallAdd "chain1" (example_tx [x01]); CallTake "chain2"
                      ; CallAdd "chain1" (example_tx [x02]) ] "chain1")).
    reflexivity.
Defined.

Lemma IsEmpty_iff_no_instruction_witness :
  IsEmpty [mkClientTransaction unit []; mkClientTransaction unit []] = true
  /\ IsEmpty [mkClientTransaction unit []; example_tx [x01]] = false.
Proof.
  split.
  - apply (proj1 (IsEmpty_iff_no_instruction unit
                    [mkClientTransaction unit []; mkClientTransaction unit []])).
    repeat constructor.
  - apply not_true_is_false. intros H.
    apply (proj1 (IsEmpty_iff_no_instruction unit
                    [mkClientTransaction unit []; example_tx [x01]])) in H.
    inversion H as [| ? ? _ Hrest]. inversion Hrest as [| ? ? Hhd _].
    discriminate Hhd.
Defined.

(** * Further properties of the service *)

(** ** Looking up arguments *)

Lemma Search_skip (pre rest : Arguments) (name : string) :
  Forall (fun a => Argument_Name a <> name) pre ->
  Search (pre ++ rest) name = Search rest name.
Proof.
  induction 1 as [| a pre Ha _ IH]; simpl; [reflexivity |].
  apply String.eqb_neq in Ha. rewrite Ha. exact IH.
Qed.

(** X1: [Search] returns the value of the first argument of the name asked
    for: arguments of other names before it are skipped, whatever follows
    it, also another argument of that name, is not looked at. *)
Theorem Search_first_match (pre post : Arguments) (name : string) (v : bytes) :
  Forall (fun a => Argument_Name a <> name) pre ->
  Search (pre ++ mkArgument name v :: post) name = v.
Proof.
  intros Hpre. rewrite Search_skip by exact Hpre.
  simpl. rewrite String.eqb_refl. reflexivity.
Qed.

Lemma Search_first_match_witness :
  Search ([mkArgument "roster" [x07]]
            ++ mkArgument "darc" [x01] :: [mkArgument "darc" [x02]]) "darc"
  = [x01].
Proof.
  apply (Search_first_match [mkArgument "roster" [x07]]
           [mkArgument "darc" [x02]] "darc" [x01]).
  repeat constructor. vm_compute. discriminate.
Defined.



(** ** Actions, derived identifiers and transaction hashes *)

Section HashProperties.

Variable sha256_Sum256 : bytes -> bytes.
Variable Identity : Type.

Implicit Types instr : Instruction Identity.

(** X3: among instructions with exactly one of Spawn, Invoke and Delete
    set, the action tells the kind and its parameter: two such instructions
    with the same action have the same type, the same contract ID when
    they spawn and the same command when they invoke. *)
Theorem Action_determines_kind instr1 instr2 :
  GetType instr1 <> InvalidInstrType ->
  GetType instr2 <> InvalidInstrType ->
  Action instr1 = Action instr2 ->
  GetType instr1 = GetType instr2
  /\ Spawn_ContractID <$> Instruction_Spawn _ instr1
     = Spawn_ContractID <$> Instruction_Spawn _ instr2
  /\ Invoke_Command <$> Instruction_Invoke _ instr1
     = Invoke_Command <$> Instruction_Invoke _ instr2.
Proof.
  unfold GetType, Action.
  destruct (Instruction_Spawn _ instr1) as [sp1 |],
           (Instruction_Invoke _ instr1) as [inv1 |],
           (Instruction_Delete _ instr1) as [del1 |];
    intros H1; try contradiction;
    destruct (Instruction_Spawn _ instr2) as [sp2 |],
             (Instruction_Invoke _ instr2) as [inv2 |],
             (Instruction_Delete _ instr2) as [del2 |];
    intros H2; try contradiction;
    simpl; intros Heq; try discriminate Heq;
    repeat split; try reflexivity.
  - apply (append_inj_prefix "spawn:") in Heq. congruence.
  - apply (append_inj_prefix "invoke:") in Heq. congruence.
Qed.

Lemma fold_Write_concat {A : Type} (f : A -> bytes) (l : list A) (h : hash) :
  fold_left (fun h a => Write h (f a)) l h = h ++ concat (map f l).
Proof.
  revert h. induction l as [| a l IH]; intros h; simpl.
  - symmetry. apply app_nil_r.
  - rewrite IH. unfold Write. rewrite <- app_assoc. reflexivity.
Qed.

Lemma fold_Write2_concat {A : Type} (f g : A -> bytes) (l : list A) (h : hash) :
  fold_left (fun h a => Write (Write h (f a)) (g a)) l h
  = h ++ concat (map (fun a => f a ++ g a) l).
Proof.
  revert h. induction l as [| a l IH]; intros h; simpl.
  - symmetry. apply app_nil_r.
  - rewrite IH. unfold Write. rewrite <- !app_assoc. reflexivity.
Qed.

(** X4: [DeriveID] is the digest, cut or padded to 32 bytes, of the
    instruction's hash, a zero byte, every signature followed by a zero
    byte, the string and a last zero byte; it has 32 bytes. *)
Theorem DeriveID_layout instr (what : string) :
  DeriveID sha256_Sum256 instr what
  = InstanceIDFromSlice
      (sha256_Sum256 (DeriveID_preimage sha256_Sum256 instr what))
  /\ length (DeriveID sha256_Sum256 instr what) = 32%nat.
Proof.
  split; [| apply InstanceIDFromSlice_length].
  unfold DeriveID, DeriveID_preimage, Sum. do 2 f_equal.
  rewrite (fold_Write2_concat (Signature_Signature Identity) (fun _ => [x00])).
  unfold Write, sha256_New. simpl.
  rewrite <- !app_assoc. reflexivity.
Qed.

End HashProperties.

Lemma Action_determines_kind_witness :
  GetType (example_invoke "evolve" [x01])
  = GetType (example_invoke "evolve" [x02])
  /\ Spawn_ContractID <$> Instruction_Spawn _ (example_invoke "evolve" [x01])
     = Spawn_ContractID <$> Instruction_Spawn _ (example_invoke "evolve" [x02])
  /\ Invoke_Command <$> Instruction_Invoke _ (example_invoke "evolve" [x01])
     = Invoke_Command <$> Instruction_Invoke _ (example_invoke "evolve" [x02]).
Proof.
  apply (Action_determines_kind unit (example_invoke "evolve" [x01])
           (example_invoke "evolve" [x02])).
  - vm_compute. discriminate.
  - vm_compute. discriminate.
  - reflexivity.
Defined.

Section TransactionHashProperties.

Variable sha256_Sum256 : bytes -> bytes.
Variable Identity : Type.

Lemma Hash_set_Signatures (instr : Instruction Identity)
    (sigs : list (Signature Identity)) :
  Hash sha256_Sum256 (set_Signatures instr sigs) = Hash sha256_Sum256 instr.
Proof. reflexivity. Qed.

Lemma Instructions_Hash_concat (instrs : Instructions Identity) :
  Instructions_Hash sha256_Sum256 instrs
  = sha256_Sum256 (concat (map (Hash sha256_Sum256) instrs)).
Proof.
  unfold Instructions_Hash, Sum. rewrite fold_Write_concat. reflexivity.
Qed.

(** X5: the hash of a list of transactions is the digest of the
    concatenation, in order, of one digest per transaction, each the digest
    of the concatenation of the hashes of its instructions; a transaction
    without instructions contributes the digest of the empty input. *)
Theorem ClientTransactions_Hash_layout (cts : ClientTransactions Identity) :
  ClientTransactions_Hash sha256_Sum256 cts
  = sha256_Sum256
      (concat
         (map (fun ct =>
                 sha256_Sum256
                   (concat (map (Hash sha256_Sum256)
                              (ClientTransaction_Instructions _ ct))))
            cts)).
Proof.
  unfold ClientTransactions_Hash, Sum. rewrite fold_Write_concat.
  unfold sha256_New. simpl. do 2 f_equal.
  apply map_ext. intros ct. apply Instructions_Hash_concat.
Qed.

(** X6: the hash of a list of transactions does not cover the signatures:
    writing any other signatures into the instructions leaves it as it
    was. *)
Theorem ClientTransactions_Hash_ignores_signatures
    (sigs : Instruction Identity -> list (Signature Identity))
    (cts : ClientTransactions Identity) :
  ClientTransactions_Hash sha256_Sum256 (map (resign sigs) cts)
  = ClientTransactions_Hash sha256_Sum256 cts.
Proof.
  unfold ClientTransactions_Hash, Sum. rewrite !fold_Write_concat.
  rewrite map_map. do 3 f_equal. apply map_ext. intros ct.
  rewrite !Instructions_Hash_concat. unfold resign. simpl.
  rewrite map_map. reflexivity.
Qed.

End TransactionHashProperties.

(** ** Signing an instruction *)

Section SigningProperties.

Variable sha256_Sum256 : bytes -> bytes.
Variable Identity : Type.
Variable Darc : Type.
Variable darc_NewFromProtobuf : bytes -> result Darc.
Variable darc_GetID : Darc -> bytes.
Variable Signer : Type.
Variable Signer_Identity : Signer -> Identity.
Variable Signer_Sign : Signer -> bytes -> result bytes.
Variable Request_Hash : Request Identity -> bytes.
Variable Identity_zero : Identity.

Implicit Types (instr : Instruction Identity) (signers : list Signer).

Local Abbreviation sign_by :=
  (SignBy sha256_Sum256 darc_NewFromProtobuf darc_GetID Signer_Identity
     Signer_Sign Request_Hash Identity_zero).
Local Abbreviation to_request :=
  (ToDarcRequest sha256_Sum256 darc_NewFromProtobuf darc_GetID).
Local Abbreviation zero_sig := (mkSignature Identity [] Identity_zero).
Local Abbreviation signed signers vals :=
  (zip_with (mkSignature Identity) vals (map Signer_Identity signers)).

(** The digest that [SignBy] hands to the signers. *)
Local Abbreviation signing_digest instr darcID signers :=
  (Request_Hash
     (InitRequest Identity darcID (Action instr)
        (Hash sha256_Sum256 instr) (map Signer_Identity signers)
        (map (fun _ => []) signers))).

Lemma sign_loop_all (digest : bytes) signers (vals : list bytes)
    (done : list (Signature Identity)) :
  Forall2 (fun s v => Signer_Sign s digest = Ok v) signers vals ->
  sign_loop Signer_Identity Signer_Sign digest signers (length done)
    (done ++ replicate (length signers) zero_sig)
  = (done ++ signed signers vals, None).
Proof.
  intros Hall. revert done.
  induction Hall as [| s v signers vals Hs _ IH]; intros done; simpl.
  - reflexivity.
  - rewrite Hs.
    rewrite insert_app_r_alt by lia.
    rewrite Nat.sub_diag. simpl.
    rewrite (cons_middle _ done), app_assoc.
    replace (S (length done))
      with (length (done ++ [mkSignature Identity v (Signer_Identity s)]))
      by (rewrite length_app; simpl; lia).
    rewrite IH. rewrite <- app_assoc. reflexivity.
Qed.

Lemma sign_loop_stops (digest : bytes) (good : list Signer) (bad : Signer)
    (rest : list Signer) (vals : list bytes) (err : error)
    (done : list (Signature Identity)) :
  Forall2 (fun s v => Signer_Sign s digest = Ok v) good vals ->
  Signer_Sign bad digest = Err err ->
  sign_loop Signer_Identity Signer_Sign digest (good ++ bad :: rest)
    (length done)
    (done ++ replicate (length (good ++ bad :: rest)) zero_sig)
  = (done ++ signed good vals ++ replicate (S (length rest)) zero_sig,
     Some err).
Proof.
  intros Hgood Hbad. revert done.
  induction Hgood as [| s v good vals Hs _ IH]; intros done; simpl.
  - rewrite Hbad. reflexivity.
  - rewrite Hs.
    rewrite insert_app_r_alt by lia.
    rewrite Nat.sub_diag. simpl.
    rewrite (cons_middle _ done), app_assoc.
    replace (S (length done))
      with (length (done ++ [mkSignature Identity v (Signer_Identity s)]))
      by (rewrite length_app; simpl; lia).
    rewrite IH. rewrite <- app_assoc. reflexivity.
Qed.

Lemma SignBy_unfold instr (darcID : bytes) signers :
  sign_by instr darcID signers
  = let '(sigs, err) :=
      sign_loop Signer_Identity Signer_Sign
        (signing_digest instr darcID signers) signers 0
        (replicate (length signers) zero_sig) in
    Returns (set_Signatures instr sigs, err).
Proof.
  unfold SignBy. rewrite ToDarcRequest_returns.
  unfold set_Identities. simpl.
  rewrite !map_map. simpl. reflexivity.
Qed.

(** X7: when every signer signs, [SignBy] replaces the signatures of the
    instruction by one signature per signer, in the order of the signers,
    each with the signer's identity; every signer signs the hash of the
    darc request for the instruction's action, with the instruction's hash
    as message and the signers' identities; the signatures the instruction
    had before play no part, and nothing else of the instruction
    changes. *)
Theorem SignBy_signs_request_hash instr (darcID : bytes) signers
    (vals : list bytes) :
  Forall2
    (fun s v => Signer_Sign s (signing_digest instr darcID signers) = Ok v)
    signers vals ->
  sign_by instr darcID signers
  = Returns (set_Signatures instr (signed signers vals), None).
Proof.
  intros Hall. rewrite SignBy_unfold.
  pose proof (sign_loop_all _ signers vals [] Hall) as Hloop.
  simpl in Hloop. rewrite Hloop. reflexivity.
Qed.

(** X8: [SignBy] is not all or nothing: when a signer fails after others
    have signed, the error of that signer is returned and the instruction
    is left with as many signatures as there are signers, those of the
    signers before the failing one followed by empty signatures with the
    zero identity. *)
Theorem SignBy_failure_leaves_partial_signatures instr (darcID : bytes)
    (good : list Signer) (bad : Signer) (rest : list Signer)
    (vals : list bytes) (err : error) :
  let signers := good ++ bad :: rest in
  Forall2
    (fun s v => Signer_Sign s (signing_digest instr darcID signers) = Ok v)
    good vals ->
  Signer_Sign bad (signing_digest instr darcID signers) = Err err ->
  sign_by instr darcID signers
  = Returns
      (set_Signatures instr
         (signed good vals ++ replicate (S (length rest)) zero_sig),
       Some err).
Proof.
  intros signers Hgood Hbad. rewrite SignBy_unfold.
  unfold signers in *.
  pose proof (sign_loop_stops _ good bad rest vals err [] Hgood Hbad)
    as Hloop.
  simpl in Hloop. rewrite Hloop. reflexivity.
Qed.

(** X9: when the hash of a darc request does not depend on the signatures
    it carries, what [SignBy] signs is what a verifier computes: the
    request built from the signed instruction has the signers' identities,
    and each signature of the instruction is the signer's signature of the
    hash of that request. *)
Theorem SignBy_then_ToDarcRequest instr (darcID : bytes) signers
    (vals : list bytes) :
  (forall base action msg ids sigs1 sigs2,
      Request_Hash (InitRequest Identity base action msg ids sigs1)
      = Request_Hash (InitRequest Identity base action msg ids sigs2)) ->
  Forall2
    (fun s v => Signer_Sign s (signing_digest instr darcID signers) = Ok v)
    signers vals ->
  exists instr' req,
    sign_by instr darcID signers = Returns (instr', None)
    /\ to_request instr' darcID = Returns (Ok req)
    /\ Request_Identities _ req = map Signer_Identity signers
    /\ Request_Signatures _ req = vals
    /\ Forall2 (fun s v => Signer_Sign s (Request_Hash req) = Ok v)
         signers vals.
Proof.
  intros Hhash Hall.
  exists (set_Signatures instr (signed signers vals)). eexists.
  split.
  { rewrite SignBy_unfold.
    pose proof (sign_loop_all _ signers vals [] Hall) as Hloop.
    simpl in Hloop. rewrite Hloop. reflexivity. }
  split; [apply ToDarcRequest_returns |].
  pose proof (Forall2_length _ _ _ Hall) as Hlen.
  assert (Hids : map (Signature_Signer Identity) (signed signers vals)
                 = map Signer_Identity signers).
  { clear Hall. revert vals Hlen.
    induction signers as [| s signers IH]; intros [| v vals] Hlen;
      simpl in *; try lia; [reflexivity |].
    f_equal. apply IH. lia. }
  assert (Hsigs : map (Signature_Signature Identity) (signed signers vals)
                  = vals).
  { clear Hall Hids. revert vals Hlen.
    induction signers as [| s signers IH]; intros [| v vals] Hlen;
      simpl in *; try lia; [reflexivity |].
    f_equal. apply IH. lia. }
  simpl. rewrite Hids, Hsigs.
  split; [reflexivity | split; [reflexivity |]].
  eapply Forall2_impl; [exact Hall |].
  intros s v Hs. rewrite <- Hs. f_equal. apply Hhash.
Qed.

End SigningProperties.

Lemma SignBy_signs_request_hash_witness :
  exists vals,
    SignBy example_digest example_NewFromProtobuf example_digest
      (fun key : bytes => key) example_Sign example_Request_Hash []
      example_signed_invoke [x09] [[x01]; [x02]]
    = Returns
        (set_Signatures example_signed_invoke
           (zip_with (mkSignature bytes) vals [[x01]; [x02]]), None).
Proof.
  eexists.
  apply (SignBy_signs_request_hash example_digest bytes bytes
           example_NewFromProtobuf example_digest bytes (fun key => key)
           example_Sign example_Request_Hash [] example_signed_invoke [x09]
           [[x01]; [x02]]).
  repeat (constructor; [reflexivity |]). constructor.
Defined.

Lemma SignBy_failure_leaves_partial_signatures_witness :
  exists vals,
    SignBy example_digest example_NewFromProtobuf example_digest
      (fun key : bytes => key) example_Sign example_Request_Hash []
      example_signed_invoke [x09] [[x01]; []; [x02]]
    = Returns
        (set_Signatures example_signed_invoke
           (zip_with (mkSignature bytes) vals [[x01]]
              ++ [mkSignature bytes [] []; mkSignature bytes [] []]),
         Some "no key").
Proof.
  eexists.
  apply (SignBy_failure_leaves_partial_signatures example_digest bytes bytes
           example_NewFromProtobuf example_digest bytes (fun key => key)
           example_Sign example_Request_Hash [] example_signed_invoke [x09]
           [[x01]] [] [[x02]]).
  - repeat (constructor; [reflexivity |]). constructor.
  - reflexivity.
Defined.

Lemma SignBy_then_ToDarcRequest_witness :
  exists vals instr' req,
    SignBy example_digest example_NewFromProtobuf example_digest
      (fun key : bytes => key) example_Sign example_Request_Hash []
      example_signed_invoke [x09] [[x01]; [x02]]
    = Returns (instr', None)
    /\ ToDarcRequest example_digest example_NewFromProtobuf example_digest
         instr' [x09] = Returns (Ok req)
    /\ Request_Identities _ req = [[x01]; [x02]]
    /\ Request_Signatures _ req = vals
    /\ Forall2 (fun s v => example_Sign s (example_Request_Hash req) = Ok v)
         [[x01]; [x02]] vals.
Proof.
  eexists.
  apply (SignBy_then_ToDarcRequest example_digest bytes bytes
           example_NewFromProtobuf example_digest bytes (fun key => key)
           example_Sign example_Request_Hash [] example_signed_invoke [x09]
           [[x01]; [x02]]).
  - intros base action msg ids sigs1 sigs2. reflexivity.
  - repeat (constructor; [reflexivity |]). constructor.
Defined.

(** ** The transaction buffer, continued *)

Section BufferIsolation.

Variable Identity : Type.

Implicit Types (r : txBuffer Identity) (key k : string).
Implicit Types (newTx : ClientTransaction Identity).

(** X10: a buffer reached from a new one by [add] and [take] calls never
    keeps an empty or nil slice: whatever is stored under a key has at
    least one transaction. *)
Theorem buffer_stores_no_empty_slice (cs : list (txCall Identity)) key
    (s : slice (ClientTransaction Identity)) :
  txsMap _ (run_calls newTxBuffer cs) !! key = Some s ->
  exists newTx txs, s = slice_of (newTx :: txs).
Proof.
  intros Hs.
  assert (Hr : holds (run_calls newTxBuffer cs) key (pending key [] cs)).
  { apply holds_run_calls. unfold holds. simpl. apply lookup_empty. }
  unfold holds in Hr. rewrite Hs in Hr.
  destruct (pending key [] cs) as [| newTx txs]; [discriminate |].
  exists newTx, txs. congruence.
Qed.

(** X11: calls on another key do not change what [take] returns for a key,
    for any buffer: neither an [add] nor a [take] on [k] changes the slice
    taken for a different [key]. *)
Theorem take_ignores_other_keys r k key newTx :
  k <> key ->
  fst (take_tx (add_tx r k newTx) key) = fst (take_tx r key)
  /\ fst (take_tx (snd (take_tx r k)) key) = fst (take_tx r key).
Proof.
  intros Hne. split.
  - unfold take_tx, add_tx.
    destruct (txsMap _ r !! k); simpl; rewrite lookup_insert_ne by exact Hne;
      destruct (txsMap _ r !! key); reflexivity.
  - unfold take_tx.
    destruct (txsMap _ r !! k); simpl; [| reflexivity].
    rewrite lookup_delete_ne by exact Hne.
    destruct (txsMap _ r !! key); reflexivity.
Qed.

(** X12: for any buffer, a [take] right after an [add] on the same key
    returns what was stored under the key followed by the new transaction,
    as a slice that is not nil, and leaves the buffer as a [take] without
    the [add] would have left it. *)
Theorem add_then_take r key newTx :
  fst (take_tx (add_tx r key newTx) key)
  = slice_of (elements_of (fst (take_tx r key)) ++ [newTx])
  /\ snd (take_tx (add_tx r key newTx) key) = snd (take_tx r key).
Proof.
  unfold take_tx, add_tx.
  destruct (txsMap _ r !! key) as [txs |] eqn:Hkey; simpl;
    rewrite lookup_insert_eq; simpl.
  - split; [destruct txs; reflexivity |].
    rewrite delete_insert_eq. reflexivity.
  - split; [reflexivity |].
    rewrite delete_insert_eq, delete_id by exact Hkey.
    destruct r; reflexivity.
Qed.

End BufferIsolation.

Lemma buffer_stores_no_empty_slice_witness :
  exists newTx txs,
    slice_of [example_tx [x01]; example_tx [x02]] = slice_of (newTx :: txs).
Proof.
  apply (buffer_stores_no_empty_slice unit
           [ CallAdd "chain1" (example_tx [x01]); CallTake "chain2"
           ; CallAdd "chain1" (example_tx [x02]) ] "chain1").
  vm_compute. reflexivity.
Defined.

Lemma take_ignores_other_keys_witness :
  fst (take_tx (add_tx (add_tx newTxBuffer "chain1" (example_tx [x01]))
                  "chain2" (example_tx [x02])) "chain1")
  = fst (take_tx (add_tx newTxBuffer "chain1" (example_tx [x01])) "chain1")
  /\ fst (take_tx
            (snd (take_tx (add_tx newTxBuffer "chain1" (example_tx [x01]))
                    "chain2")) "chain1")
     = fst (take_tx (add_tx newTxBuffer "chain1" (example_tx [x01])) "chain1").
Proof.
  apply (take_ignores_other_keys unit
           (add_tx newTxBuffer "chain1" (example_tx [x01]))
           "chain2" "chain1" (example_tx [x02])).
  discriminate.
Defined.

(** ** Bytes as numbers *)

Lemma Z_of_byte_range (b : byte) : 0 <= Z_of_byte b < 256.
Proof.
  unfold Z_of_byte. pose proof (Byte.to_N_bounded b). lia.
Qed.

Lemma Z_of_byte_of_Z (v : Z) : Z_of_byte (byte_of_Z v) = Z.land v 255.
Proof.
  unfold Z_of_byte, byte_of_Z.
  assert (Hrange : 0 <= Z.land v 255 < 256).
  { change 255 with (Z.ones 8). rewrite Z.land_ones by lia.
    apply Z.mod_pos_bound. lia. }
  destruct (Byte.of_N (Z.to_N (Z.land v 255))) as [b |] eqn:Hb.
  - apply Byte.to_of_N in Hb. rewrite Hb. apply Z2N.id. lia.
  - apply Byte.of_N_None_iff in Hb. lia.
Qed.

Lemma byte_of_Z_of_byte (b : byte) : byte_of_Z (Z_of_byte b) = b.
Proof.
  pose proof (Z_of_byte_range b) as Hrange.
  unfold byte_of_Z.
  change 255 with (Z.ones 8). rewrite Z.land_ones by lia.
  rewrite Z.mod_small by (change (2 ^ 8) with 256; lia).
  unfold Z_of_byte. rewrite N2Z.id, Byte.of_to_N. reflexivity.
Qed.

Lemma Z_of_byte_inj (a b : byte) : Z_of_byte a = Z_of_byte b -> a = b.
Proof.
  intros H. rewrite <- (byte_of_Z_of_byte a), <- (byte_of_Z_of_byte b), H.
  reflexivity.
Qed.

Lemma land_255_small (v : Z) : 0 <= v < 256 -> Z.land v 255 = v.
Proof.
  intros H. change 255 with (Z.ones 8). rewrite Z.land_ones by lia.
  apply Z.mod_small. change (2 ^ 8) with 256. lia.
Qed.

Lemma land_lxor_distr (a b c : Z) :
  Z.land (Z.lxor a b) c = Z.lxor (Z.land a c) (Z.land b c).
Proof.
  apply Z.bits_inj'. intros n Hn.
  rewrite Z.land_spec, !Z.lxor_spec, !Z.land_spec.
  destruct (Z.testbit a n), (Z.testbit b n), (Z.testbit c n); reflexivity.
Qed.

Lemma Z_of_byte_xor (a b : byte) :
  Z_of_byte (byte_xor a b) = Z.lxor (Z_of_byte a) (Z_of_byte b).
Proof.
  unfold byte_xor. rewrite Z_of_byte_of_Z, land_lxor_distr.
  rewrite !land_255_small by apply Z_of_byte_range. reflexivity.
Qed.

Lemma byte_xor_swap (x a b : byte) :
  byte_xor (byte_xor x a) b = byte_xor (byte_xor x b) a.
Proof.
  apply Z_of_byte_inj. rewrite !Z_of_byte_xor.
  rewrite !Z.lxor_assoc. f_equal. apply Z.lxor_comm.
Qed.

Lemma byte_xor_cancel (x a : byte) : byte_xor (byte_xor x a) a = x.
Proof.
  apply Z_of_byte_inj. rewrite !Z_of_byte_xor.
  rewrite Z.lxor_assoc, Z.lxor_nilpotent. apply Z.lxor_0_r.
Qed.

Lemma bytes_Compare_Eq (a b : bytes) : bytes_Compare a b = Eq -> a = b.
Proof.
  revert b. induction a as [| x a IH]; intros [| y b]; simpl;
    try discriminate; [reflexivity |].
  destruct (Z.compare_spec (Z_of_byte x) (Z_of_byte y)) as [Hxy | Hxy | Hxy];
    try discriminate.
  intros Hab. f_equal; [apply Z_of_byte_inj, Hxy | apply IH, Hab].
Qed.

(** ** Sorted rearrangements *)

Lemma fold_left_permutation {A B : Type} (f : B -> A -> B) (l l' : list A) :
  (forall acc a b, f (f acc a) b = f (f acc b) a) ->
  Permutation l l' -> forall acc, fold_left f l acc = fold_left f l' acc.
Proof.
  intros Hswap. induction 1 as [| x l l' _ IH | x y l | l l' l'' _ IH1 _ IH2];
    intros acc; simpl.
  - reflexivity.
  - apply IH.
  - rewrite Hswap. reflexivity.
  - rewrite IH1. apply IH2.
Qed.

(** Two sorted rearrangements of one list are equal when no two different
    elements of the list are each not after the other. *)
Lemma sorted_rearrangement_unique {A : Type} (R : A -> A -> Prop)
    (l1 l2 : list A) :
  (forall a b, In a l1 -> In b l1 -> R a b -> R b a -> a = b) ->
  StronglySorted R l1 -> StronglySorted R l2 -> Permutation l1 l2 ->
  l1 = l2.
Proof.
  intros Hanti Hs1. revert l2.
  induction Hs1 as [| x l1 Hs1 IH Hx]; intros l2 Hs2 Hperm.
  - apply Permutation_nil in Hperm. congruence.
  - destruct Hs2 as [| y l2 Hs2 Hy].
    + apply Permutation_sym, Permutation_nil in Hperm. discriminate.
    + assert (Hxy : x = y).
      { assert (Hyin : In y (x :: l1)).
        { eapply Permutation_in; [symmetry; exact Hperm | left; reflexivity]. }
        assert (Hxin : In x (y :: l2)).
        { eapply Permutation_in; [exact Hperm | left; reflexivity]. }
        destruct Hyin as [Heq | Hyin]; [exact Heq |].
        destruct Hxin as [Heq | Hxin]; [symmetry; exact Heq |].
        apply Hanti; [left; reflexivity | right; exact Hyin | |].
        - rewrite Forall_forall in Hx. apply Hx.
          apply list_elem_of_In. exact Hyin.
        - rewrite Forall_forall in Hy. apply Hy.
          apply list_elem_of_In. exact Hxin. }
      subst y. f_equal.
      apply IH; [| exact Hs2 | eapply Permutation_cons_inv; exact Hperm].
      intros a b Ha Hb. apply Hanti; right; assumption.
Qed.

(** ** The salt and the order of a batch, continued *)

Section SaltProperties.

Variable sha256_Sum256 : bytes -> bytes.

Lemma xor_into_swap (acc a b : bytes) :
  xor_into (xor_into acc a) b = xor_into (xor_into acc b) a.
Proof.
  unfold xor_into. apply list_eq. intros i.
  rewrite !list_lookup_imap.
  destruct (@lookup nat byte (list byte) _ i acc); simpl; [| reflexivity].
  f_equal. apply byte_xor_swap.
Qed.

Lemma xor_into_cancel (acc a : bytes) :
  xor_into (xor_into acc a) a = acc.
Proof.
  unfold xor_into. apply list_eq. intros i.
  rewrite !list_lookup_imap.
  destruct (@lookup nat byte (list byte) _ i acc); simpl; [| reflexivity].
  f_equal. apply byte_xor_cancel.
Qed.

Lemma xorTransactions_perm (bs bs' : list bytes) :
  Permutation bs bs' ->
  xorTransactions sha256_Sum256 bs = xorTransactions sha256_Sum256 bs'.
Proof.
  intros Hperm. unfold xorTransactions.
  apply fold_left_permutation; [| exact Hperm].
  intros acc a b. apply xor_into_swap.
Qed.

Lemma xorTransactions_length (bs : list bytes) :
  length (xorTransactions sha256_Sum256 bs) = 32%nat.
Proof.
  unfold xorTransactions.
  assert (Hstart : length (make_bytes 32) = 32%nat) by reflexivity.
  revert Hstart. generalize (make_bytes 32).
  induction bs as [| b bs IH]; intros acc Hacc; simpl; [exact Hacc |].
  apply IH. unfold xor_into. rewrite length_imap. exact Hacc.
Qed.

(** X13: the salt has 32 bytes and does not depend on the order of the
    encoded transactions: two rearrangements of one batch have the same
    salt. *)
Theorem xorTransactions_order_independent (bs bs' : list bytes) :
  Permutation bs bs' ->
  xorTransactions sha256_Sum256 bs = xorTransactions sha256_Sum256 bs'
  /\ length (xorTransactions sha256_Sum256 bs) = 32%nat.
Proof.
  intros Hperm.
  split; [apply xorTransactions_perm, Hperm | apply xorTransactions_length].
Qed.

(** X14: an encoded transaction that occurs twice drops out of the salt:
    with the same encoding added twice the salt is the salt of the rest,
    and the salt of a batch of two equal encodings is all zero. *)
Theorem xorTransactions_cancels_pairs (b : bytes) (bs : list bytes) :
  xorTransactions sha256_Sum256 (b :: b :: bs)
  = xorTransactions sha256_Sum256 bs
  /\ xorTransactions sha256_Sum256 [b; b] = replicate 32 x00.
Proof.
  unfold xorTransactions. simpl. rewrite xor_into_cancel.
  split; reflexivity.
Qed.

End SaltProperties.

Lemma xorTransactions_order_independent_witness :
  xorTransactions example_digest [[x03]; [x01]; [x02]]
  = xorTransactions example_digest [[x01]; [x02]; [x03]]
  /\ length (xorTransactions example_digest [[x03]; [x01]; [x02]]) = 32%nat.
Proof.
  apply (xorTransactions_order_independent example_digest
           [[x03]; [x01]; [x02]] [[x01]; [x02]; [x03]]).
  apply (Permutation_cons_append [[x01]; [x02]] [x03]).
Defined.

Section OrderingMore.

Variable sha256_Sum256 : bytes -> bytes.
Variable Identity : Type.
Variable network_Marshal : ClientTransaction Identity -> result bytes.
Variable network_Unmarshal : bytes -> result (Message Identity).
Variable sort_Slice : (bytes -> bytes -> bool) -> list bytes -> list bytes.
Hypothesis sort_Slice_contract : sort_contract sort_Slice.

Local Abbreviation sort_txs :=
  (sortTransactions sha256_Sum256 network_Marshal network_Unmarshal sort_Slice).
Local Abbreviation coded :=
  (Forall2 (fun t b => network_Marshal t = Ok b
                       /\ network_Unmarshal b = Ok (MsgClientTransaction t))).
Local Abbreviation sorted_encodings bs :=
  (sort_Slice (salted_less sha256_Sum256 (xorTransactions sha256_Sum256 bs))
     bs).

Lemma round_trips_coded (ts : list (ClientTransaction Identity)) :
  Forall (round_trips network_Marshal network_Unmarshal) ts ->
  exists bs, coded ts bs.
Proof.
  induction 1 as [| t ts [b [Hm Hu]] _ [bs IH]].
  - exists []. constructor.
  - exists (b :: bs). constructor; [split; assumption | exact IH].
Qed.

Lemma coded_unmarshal_all (ts : list (ClientTransaction Identity)) bs :
  coded ts bs -> unmarshal_all network_Unmarshal bs = Ok ts.
Proof.
  induction 1 as [| t b ts bs [_ Hu] _ IH]; simpl; [reflexivity |].
  rewrite Hu, IH. reflexivity.
Qed.

Lemma coded_marshal_all (ts : list (ClientTransaction Identity)) bs :
  coded ts bs -> marshal_all network_Marshal ts = Ok bs.
Proof.
  induction 1 as [| t b ts bs [Hm _] _ IH]; simpl; [reflexivity |].
  rewrite Hm, IH. reflexivity.
Qed.

(** The result of sorting a batch that makes the round trip: the decodings
    of the sorted encodings, a rearrangement of the batch. *)
Lemma sortTransactions_coded (ts : list (ClientTransaction Identity)) bs :
  coded ts bs ->
  exists ts',
    coded ts' (sorted_encodings bs)
    /\ Permutation ts' ts
    /\ sort_txs ts = (ts', None).
Proof using sort_Slice_contract.
  intros Hcoded.
  destruct (sort_Slice_contract
              (salted_less sha256_Sum256 (xorTransactions sha256_Sum256 bs)) bs)
    as [Hperm _].
  assert (Hflip : Forall2 (fun b t => network_Marshal t = Ok b
                    /\ network_Unmarshal b = Ok (MsgClientTransaction t)) bs ts).
  { apply Forall2_flip. exact Hcoded. }
  destruct (Permutation_Forall2 (Permutation_sym Hperm) Hflip)
    as [ts' [Hts' Hflip']].
  apply Forall2_flip in Hflip'.
  exists ts'. split; [exact Hflip' | split; [symmetry; exact Hts' |]].
  unfold sortTransactions, sortWithSalt.
  rewrite (coded_marshal_all ts bs Hcoded).
  rewrite (coded_unmarshal_all ts' _ Hflip').
  rewrite write_back_all; [reflexivity |].
  symmetry. apply Permutation_length. symmetry. exact Hts'.
Qed.

(** X15: when every transaction of the batch makes the round trip through
    the codec, [sortTransactions] returns no error and leaves in the slice
    a rearrangement of the batch: no transaction is lost, added or
    changed. *)
Theorem sortTransactions_rearranges (ts : list (ClientTransaction Identity)) :
  Forall (round_trips network_Marshal network_Unmarshal) ts ->
  exists ts', sort_txs ts = (ts', None) /\ Permutation ts' ts.
Proof using sort_Slice_contract.
  intros Hts. destruct (round_trips_coded ts Hts) as [bs Hcoded].
  destruct (sortTransactions_coded ts bs Hcoded) as (ts' & _ & Hperm & Hsort).
  exists ts'. split; assumption.
Qed.

Lemma sorted_encodings_perm (bs1 bs2 : list bytes) :
  (forall a b, In a bs1 -> In b bs1 ->
     spec_key sha256_Sum256 (xorTransactions sha256_Sum256 bs1) a
     = spec_key sha256_Sum256 (xorTransactions sha256_Sum256 bs1) b ->
     a = b) ->
  Permutation bs1 bs2 ->
  sorted_encodings bs1 = sorted_encodings bs2.
Proof using sort_Slice_contract.
  intros Hkeys Hperm.
  rewrite <- (xorTransactions_perm sha256_Sum256 bs1 bs2 Hperm).
  set (salt := xorTransactions sha256_Sum256 bs1) in *.
  destruct (sort_Slice_contract (salted_less sha256_Sum256 salt) bs1)
    as [Hp1 Hs1].
  destruct (sort_Slice_contract (salted_less sha256_Sum256 salt) bs2)
    as [Hp2 Hs2].
  specialize (Hs1 (salted_less_strict_weak sha256_Sum256 salt)).
  specialize (Hs2 (salted_less_strict_weak sha256_Sum256 salt)).
  eapply sorted_rearrangement_unique; [| exact Hs1 | exact Hs2 |].
  - intros a b Ha Hb Hab Hba. simpl in Hab, Hba.
    apply Hkeys.
    + eapply Permutation_in; [exact Hp1 | exact Ha].
    + eapply Permutation_in; [exact Hp1 | exact Hb].
    + unfold salted_less in Hab, Hba. unfold spec_key.
      apply bytes_Compare_Eq.
      rewrite (bytes_Compare_antisym (sha256_Sum256 (salt ++ a))
                 (sha256_Sum256 (salt ++ b))) in Hab.
      destruct (bytes_Compare (sha256_Sum256 (salt ++ a))
                  (sha256_Sum256 (salt ++ b))); simpl in *;
        [reflexivity | discriminate | discriminate].
  - rewrite Hp1, Hperm, Hp2. reflexivity.
Qed.

(** X16: when every transaction of the batch makes the round trip through
    the codec and no two different encodings of the batch have the same
    salted digest, the order [sortTransactions] produces does not depend on
    the order of the input: every rearrangement of the batch gives the
    same result, and sorting the result again changes nothing. *)
Theorem sortTransactions_order_independent
    (ts1 ts2 : list (ClientTransaction Identity)) (bs1 : list bytes) :
  Forall2 (fun t b => network_Marshal t = Ok b) ts1 bs1 ->
  Forall (round_trips network_Marshal network_Unmarshal) ts1 ->
  (forall a b, In a bs1 -> In b bs1 ->
     spec_key sha256_Sum256 (xorTransactions sha256_Sum256 bs1) a
     = spec_key sha256_Sum256 (xorTransactions sha256_Sum256 bs1) b ->
     a = b) ->
  Permutation ts1 ts2 ->
  sort_txs ts1 = sort_txs ts2
  /\ sort_txs (fst (sort_txs ts1)) = sort_txs ts1.
Proof using sort_Slice_contract.
  intros Henc Hround Hkeys Hperm.
  assert (Hcoded : coded ts1 bs1).
  { clear Hkeys Hperm. induction Henc as [| t b ts bs Hm _ IH].
    - constructor.
    - inversion Hround as [| ? ? [b' [Hm' Hu]] Hrest]; subst.
      constructor; [| apply IH, Hrest].
      split; [exact Hm | congruence]. }
  assert (Hany : forall ts, Permutation ts1 ts -> sort_txs ts1 = sort_txs ts).
  { intros ts Hts.
    destruct (Permutation_Forall2 Hts Hcoded) as [bs [Hbs Hcoded']].
    destruct (sortTransactions_coded ts1 bs1 Hcoded) as (r1 & Hr1 & _ & Hs1).
    destruct (sortTransactions_coded ts bs Hcoded') as (r2 & Hr2 & _ & Hs2).
    rewrite Hs1, Hs2. f_equal.
    rewrite (sorted_encodings_perm bs1 bs Hkeys Hbs) in Hr1.
    apply coded_unmarshal_all in Hr1, Hr2. congruence. }
  split; [apply Hany, Hperm |].
  destruct (sortTransactions_coded ts1 bs1 Hcoded) as (r1 & _ & Hp1 & Hs1).
  rewrite Hs1 at 1. simpl. symmetry. apply Hany. symmetry. exact Hp1.
Qed.

End OrderingMore.

Lemma sortTransactions_rearranges_witness :
  exists ts',
    sortTransactions example_digest example_Marshal example_Unmarshal
      example_sort [example_tx [x03]; example_tx [x01]; example_tx [x02]]
    = (ts', None)
    /\ Permutation ts' [example_tx [x03]; example_tx [x01]; example_tx [x02]].
Proof.
  apply (sortTransactions_rearranges example_digest unit example_Marshal
           example_Unmarshal example_sort example_sort_contract
           [example_tx [x03]; example_tx [x01]; example_tx [x02]]).
  repeat constructor; eexists; split; reflexivity.
Defined.

Lemma sortTransactions_order_independent_witness :
  sortTransactions example_digest example_Marshal example_Unmarshal
    example_sort [example_tx [x03]; example_tx [x01]; example_tx [x02]]
  = sortTransactions example_digest example_Marshal example_Unmarshal
      example_sort [example_tx [x01]; example_tx [x02]; example_tx [x03]]
  /\ sortTransactions example_digest example_Marshal example_Unmarshal
       example_sort
       (fst (sortTransactions example_digest example_Marshal
               example_Unmarshal example_sort
               [example_tx [x03]; example_tx [x01]; example_tx [x02]]))
     = sortTransactions example_digest example_Marshal example_Unmarshal
         example_sort [example_tx [x03]; example_tx [x01]; example_tx [x02]].
Proof.
  apply (sortTransactions_order_independent example_digest unit
           example_Marshal example_Unmarshal example_sort example_sort_contract
           [example_tx [x03]; example_tx [x01]; example_tx [x02]]
           [example_tx [x01]; example_tx [x02]; example_tx [x03]]
           [[x03]; [x01]; [x02]]).
  - repeat constructor.
  - repeat constructor; eexists; split; reflexivity.
  - intros a b Ha Hb.
    simpl in Ha, Hb.
    destruct Ha as [<- | [<- | [<- | []]]];
      destruct Hb as [<- | [<- | [<- | []]]];
      intros H; try reflexivity; vm_compute in H; discriminate H.
  - apply (Permutation_cons_append
             [example_tx [x01]; example_tx [x02]] (example_tx [x03])).
Defined.

(** ** The contracts *)

Ltac break_match_in H :=
  repeat match type of H with
         | context [match ?x with _ => _ end] => destruct x eqn:?
         end.

Ltac break_match_goal :=
  repeat match goal with
         | |- context [match ?x with _ => _ end] => destruct x eqn:?
         end.

Lemma string_of_bytes_eqb (b : bytes) (s : string) :
  String.eqb (string_of_list_byte b) s = true <-> b = bytes_of_string s.
Proof.
  rewrite String.eqb_eq. unfold bytes_of_string. split; intros H.
  - rewrite <- H. symmetry. apply list_byte_of_string_of_list_byte.
  - rewrite H. apply string_of_list_byte_of_string.
Qed.

Section ContractProperties.

Variable sha256_Sum256 : bytes -> bytes.
Variable Identity : Type.
Variable Darc : Type.
Variable darc_NewFromProtobuf : bytes -> result Darc.
Variable darc_Rules_len : Darc -> nat.
Variable darc_Verify : Darc -> bool -> option error.
Variable darc_GetBaseID : Darc -> bytes.
Variable Roster : Type.
Variable protobuf_Decode_Roster : bytes -> result Roster.
Variable protobuf_Encode_ChainConfig : ChainConfig Roster -> result bytes.
Variable binary_Varint : bytes -> Z * Z.
Variable CollectionView : Type.
Variable collection_Record : Type.
Variable coll_Get_Record : CollectionView -> bytes -> result collection_Record.
Variable Record_Values : collection_Record -> result (list GoValue).
Variable getValueContract :
  CollectionView -> bytes -> result (bytes * bytes * bytes).
Variable GetValues :
  CollectionView -> bytes -> result (bytes * string * bytes).
Variable protobuf_Decode_ChainConfig : bytes -> result (ChainConfig Roster).
Variable defaultInterval : Z.
Variable ServerIdentity : Type.
Variable Roster_IsRotation : Roster -> Roster -> bool.
Variable Roster_List : Roster -> list ServerIdentity.
Variable onet_NewRoster : list ServerIdentity -> option Roster.
Variable Roster_ID_Equal : Roster -> Roster -> bool.
Variable Roster_Aggregate_Equal : Roster -> Roster -> outcome bool.
Variable Point : Type.
Variable withinInterval : bytes -> Point -> option error.
Variable Identity_Ed25519_Point : Identity -> option Point.
Variable contracts :
  string ->
  option (CollectionView -> Instruction Identity -> list Coin
          -> outcome ContractReturn).
Variable darc_SanityCheck : Darc -> Darc -> option error.

Implicit Types (inst : Instruction Identity) (coins : list Coin).
Implicit Types (cdb coll : CollectionView) (r : ContractReturn).

Local Abbreviation spawn_config :=
  (spawnContractConfig sha256_Sum256 darc_NewFromProtobuf darc_Rules_len
     darc_Verify darc_GetBaseID protobuf_Decode_Roster
     protobuf_Encode_ChainConfig binary_Varint).
Local Abbreviation load_config :=
  (LoadConfigFromColl sha256_Sum256 getValueContract
     protobuf_Decode_ChainConfig).
Local Abbreviation load_interval :=
  (LoadBlockIntervalFromColl sha256_Sum256 getValueContract
     protobuf_Decode_ChainConfig defaultInterval).
Local Abbreviation load_darc :=
  (LoadDarcFromColl darc_NewFromProtobuf coll_Get_Record Record_Values).
Local Abbreviation valid_rotation :=
  (validRotation Roster_IsRotation Roster_List onet_NewRoster Roster_ID_Equal
     Roster_Aggregate_Equal).
Local Abbreviation invoke_config :=
  (invokeContractConfig sha256_Sum256 protobuf_Decode_Roster
     protobuf_Encode_ChainConfig getValueContract GetValues
     protobuf_Decode_ChainConfig Roster_IsRotation Roster_List onet_NewRoster
     Roster_ID_Equal Roster_Aggregate_Equal withinInterval
     Identity_Ed25519_Point).
Local Abbreviation contract_config :=
  (ContractConfig sha256_Sum256 darc_NewFromProtobuf darc_Rules_len
     darc_Verify darc_GetBaseID protobuf_Decode_Roster
     protobuf_Encode_ChainConfig binary_Varint getValueContract GetValues
     protobuf_Decode_ChainConfig Roster_IsRotation Roster_List onet_NewRoster
     Roster_ID_Equal Roster_Aggregate_Equal withinInterval
     Identity_Ed25519_Point).
Local Abbreviation contract_darc :=
  (ContractDarc darc_NewFromProtobuf darc_GetBaseID coll_Get_Record
     Record_Values GetValues contracts darc_SanityCheck).
Local Abbreviation config_bytes := (bytes_of_string "config").
Local Abbreviation darc_bytes := (bytes_of_string "darc").

Lemma spawnContractConfig_cases inst coins r :
  spawn_config inst coins = Returns r ->
  (ret_err r = None /\ ret_c r = coins /\ length (ret_sc r) = 3%nat
   /\ Forall (fun sc => StateChange_StateAction sc = Create) (ret_sc r))
  \/ (ret_err r <> None /\ ret_sc r = []).
Proof.
  intros H. unfold spawnContractConfig in H.
  break_match_in H; inversion H; subst; clear H; simpl;
    try (right; split; [discriminate | reflexivity]).
  left. repeat split; repeat constructor.
Qed.

(** X17: the genesis Spawn is all or nothing, and it succeeds only on the
    conditions it checks: when it returns without error there are exactly
    three state changes, all Create and all under the base ID of the darc,
    the coins are handed back, the darc decoded, has rules and passed
    [Verify(true)], and the block interval is above zero; when it returns
    an error there is no state change. *)
Theorem spawnContractConfig_all_or_nothing inst coins r :
  spawn_config inst coins = Returns r ->
  (ret_err r = None /\ ret_c r = coins /\ length (ret_sc r) = 3%nat
   /\ Forall (fun sc => StateChange_StateAction sc = Create) (ret_sc r)
   /\ exists spawn d,
        Instruction_Spawn _ inst = Some spawn
        /\ darc_NewFromProtobuf (Search (Spawn_Args spawn) "darc") = Ok d
        /\ darc_Rules_len d <> 0%nat
        /\ darc_Verify d true = None
        /\ 0 < fst (binary_Varint (Search (Spawn_Args spawn) "block_interval"))
        /\ Forall (fun sc => StateChange_DarcID sc = darc_GetBaseID d)
             (ret_sc r))
  \/ (ret_err r <> None /\ ret_sc r = []).
Proof.
  intros H. unfold spawnContractConfig in H.
  break_match_in H; inversion H; subst; clear H; simpl;
    try (right; split; [discriminate | reflexivity]).
  left. repeat split; try (repeat constructor).
  eexists _, _. repeat split; try eassumption.
  - apply Nat.eqb_neq. assumption.
  - apply Z.leb_gt. assumption.
  - repeat constructor.
Qed.

(** X18: [update_config] stores the bytes of the [config] argument as they
    came, under the config key derived from the darc ID of the invoked
    instance, as one Update; the only thing checked in the decoded
    configuration is that its block interval is above zero. *)
Theorem invokeContractConfig_update_config cdb inst coins
    (invoke : Invoke) (v : bytes) (c : string) (darcID : bytes)
    (newConfig : ChainConfig Roster) :
  GetValues cdb (Slice (Instruction_InstanceID _ inst)) = Ok (v, c, darcID) ->
  Instruction_Invoke _ inst = Some invoke ->
  Invoke_Command invoke = "update_config" ->
  protobuf_Decode_ChainConfig (Search (Invoke_Args invoke) "config")
  = Ok newConfig ->
  invoke_config cdb inst coins
  = Returns
      (if ChainConfig_BlockInterval _ newConfig <=? 0 then
         mkContractReturn [] coins
           (Some "block interval is less than or equal to zero")
       else
         mkContractReturn
           [ mkStateChange Update (DeriveConfigID sha256_Sum256 darcID)
               config_bytes (Search (Invoke_Args invoke) "config") darcID ]
           coins None).
Proof.
  intros Hvalues Hinvoke Hcmd Hdecode.
  unfold invokeContractConfig. rewrite Hvalues, Hinvoke, Hcmd. simpl.
  rewrite Hdecode.
  destruct (ChainConfig_BlockInterval _ newConfig <=? 0); reflexivity.
Qed.

(** X19: a [view_change] that passes its checks changes the roster and
    nothing else: the one state change is an Update of the config key
    derived from the darc ID of the invoked instance, and its value is the
    encoding of the stored configuration with the new roster written in,
    the block interval being the stored one. *)
Theorem invokeContractConfig_view_change cdb inst coins (invoke : Invoke)
    (v : bytes) (c : string) (darcID : bytes) (config : ChainConfig Roster)
    (newRoster : Roster) (sig0 : Signature Identity)
    (sigs : list (Signature Identity)) (point : Point) (configBuf : bytes) :
  GetValues cdb (Slice (Instruction_InstanceID _ inst)) = Ok (v, c, darcID) ->
  Instruction_Invoke _ inst = Some invoke ->
  Invoke_Command invoke = "view_change" ->
  load_config cdb = Ok config ->
  protobuf_Decode_Roster (Search (Invoke_Args invoke) "roster")
  = Ok newRoster ->
  valid_rotation (ChainConfig_Roster _ config) newRoster = Returns None ->
  Instruction_Signatures _ inst = sig0 :: sigs ->
  Identity_Ed25519_Point (Signature_Signer _ sig0) = Some point ->
  withinInterval darcID point = None ->
  protobuf_Encode_ChainConfig
    (mkChainConfig _ (ChainConfig_BlockInterval _ config) newRoster)
  = Ok configBuf ->
  invoke_config cdb inst coins
  = Returns
      (mkContractReturn
         [ mkStateChange Update (DeriveConfigID sha256_Sum256 darcID)
             config_bytes configBuf darcID ]
         coins None).
Proof.
  intros Hvalues Hinvoke Hcmd Hload Hroster Hvalid Hsigs Hpoint Hwithin
    Hencode.
  unfold invokeContractConfig. rewrite Hvalues, Hinvoke, Hcmd. simpl.
  rewrite Hload, Hroster, Hvalid, Hsigs, Hpoint, Hwithin.
  unfold updateRosterScs. rewrite Hload, Hencode. reflexivity.
Qed.

(** X20: the config contract is all or nothing: when it returns an error
    there is no state change; when it returns without error the coins are
    handed back and there are either the three Create changes of a Spawn,
    or, for an Invoke, exactly one Update, of contract [config], of the
    config key derived from the darc ID stored for the invoked instance. *)
Theorem ContractConfig_all_or_nothing cdb inst coins r :
  contract_config cdb inst coins = Returns r ->
  (ret_err r = None /\ ret_c r = coins
   /\ ((GetType inst = SpawnType /\ length (ret_sc r) = 3%nat
        /\ Forall (fun sc => StateChange_StateAction sc = Create) (ret_sc r))
       \/ (GetType inst = InvokeType
           /\ exists v c darcID value,
                GetValues cdb (Slice (Instruction_InstanceID _ inst))
                = Ok (v, c, darcID)
                /\ ret_sc r
                   = [ mkStateChange Update
                         (DeriveConfigID sha256_Sum256 darcID) config_bytes
                         value darcID ])))
  \/ (ret_err r <> None /\ ret_sc r = []).
Proof.
  intros H. unfold ContractConfig in H.
  destruct (GetType inst) eqn:Htype.
  - inversion H; subst. right. split; [discriminate | reflexivity].
  - destruct (spawnContractConfig_cases inst coins r H)
      as [(Herr & Hc & Hlen & Hcreate) | Hfail]; [left | right; exact Hfail].
    split; [exact Herr | split; [exact Hc | left]].
    split; [reflexivity | split; assumption].
  - unfold invokeContractConfig, updateRosterScs in H.
    break_match_in H; inversion H; subst; clear H; simpl;
      try (right; split; [discriminate | reflexivity]);
      repeat match goal with
             | Hx : match ?x with _ => _ end = Ok _ |- _ =>
                 destruct x eqn:?; [inversion Hx; subst; clear Hx
                                   | discriminate Hx]
             end;
      (left; split; [reflexivity | split; [reflexivity | right]];
       split; [reflexivity |]; eexists _, _, _, _; split; reflexivity).
  - inversion H; subst. right. split; [discriminate | reflexivity].
Qed.

(** X21: the config contract panics only inside a [view_change]: a Spawn,
    a Delete, an instruction with none or several of the three set, an
    [update_config] and an unknown command all return. *)
Theorem ContractConfig_panics_only_in_view_change cdb inst coins :
  contract_config cdb inst coins = Panics ->
  GetType inst = InvokeType
  /\ exists invoke,
       Instruction_Invoke _ inst = Some invoke
       /\ Invoke_Command invoke = "view_change".
Proof.
  intros H. unfold ContractConfig in H.
  destruct (GetType inst) eqn:Htype; try discriminate H.
  - exfalso. unfold spawnContractConfig in H. unfold GetType in Htype.
    destruct (Instruction_Spawn _ inst);
      [| destruct (Instruction_Invoke _ inst), (Instruction_Delete _ inst);
         discriminate Htype].
    break_match_in H; discriminate H.
  - split; [reflexivity |].
    unfold invokeContractConfig in H. unfold GetType in Htype.
    destruct (GetValues cdb (Slice (Instruction_InstanceID _ inst)))
      as [[[v c] darcID] | err]; [| discriminate H].
    destruct (Instruction_Invoke _ inst) as [invoke |].
    + exists invoke. split; [reflexivity |].
      destruct (String.eqb (Invoke_Command invoke) "update_config");
        [break_match_in H; discriminate H |].
      destruct (String.eqb_spec (Invoke_Command invoke) "view_change")
        as [Hcmd | Hcmd]; [exact Hcmd | discriminate H].
    + destruct (Instruction_Spawn _ inst), (Instruction_Delete _ inst);
        discriminate Htype.
Qed.

(** X22: after a genesis Spawn, a view that shows its three state changes
    gives the configuration back, provided the base ID of the darc has 32
    bytes and the configuration decodes from its encoding:
    [LoadConfigFromColl] returns the configuration with the interval and
    the roster of the Spawn.  The Spawn does not check the length of the
    base ID: with any other length the configuration it created cannot be
    loaded, the error is "value has invalid length", and
    [LoadBlockIntervalFromColl] answers the default interval. *)
Theorem LoadConfigFromColl_after_genesis inst coins coll r (spawn : Spawn)
    (d : Darc) (roster : Roster) (configBuf : bytes) :
  let interval :=
    fst (binary_Varint (Search (Spawn_Args spawn) "block_interval")) in
  let config := mkChainConfig Roster interval roster in
  spawn_config inst coins = Returns r ->
  ret_err r = None ->
  Instruction_Spawn _ inst = Some spawn ->
  darc_NewFromProtobuf (Search (Spawn_Args spawn) "darc") = Ok d ->
  protobuf_Decode_Roster (Search (Spawn_Args spawn) "roster") = Ok roster ->
  protobuf_Encode_ChainConfig config = Ok configBuf ->
  protobuf_Decode_ChainConfig configBuf = Ok config ->
  Forall (shows getValueContract coll) (ret_sc r) ->
  load_config coll
  = (if Nat.eqb (length (darc_GetBaseID d)) 32 then Ok config
     else Err "value has invalid length")
  /\ load_interval coll
     = (if Nat.eqb (length (darc_GetBaseID d)) 32 then (interval, None)
        else (defaultInterval, Some "value has invalid length")).
Proof.
  intros interval config Hrun Herr Hspawn Hdarc Hroster Hencode Hdecode Hshows.
  unfold spawnContractConfig in Hrun.
  rewrite Hspawn, Hdarc in Hrun.
  destruct (Nat.eqb (darc_Rules_len d) 0);
    [inversion Hrun; subst; discriminate Herr |].
  destruct (darc_Verify d true);
    [inversion Hrun; subst; discriminate Herr |].
  fold interval in Hrun.
  destruct (interval <=? 0);
    [inversion Hrun; subst; discriminate Herr |].
  rewrite Hroster in Hrun. fold config in Hrun. rewrite Hencode in Hrun.
  inversion Hrun; subst r; clear Hrun. simpl in Hshows.
  inversion Hshows as [| ? ? Hgenesis Hrest]; subst.
  inversion Hrest as [| ? ? _ Hrest']; subst.
  inversion Hrest' as [| ? ? Hconfig _]; subst.
  unfold shows in Hgenesis, Hconfig. simpl in Hgenesis, Hconfig.
  assert (Hload : load_config coll
                  = (if Nat.eqb (length (darc_GetBaseID d)) 32 then Ok config
                     else Err "value has invalid length")).
  { unfold LoadConfigFromColl. rewrite Hgenesis. simpl.
    destruct (Nat.eqb (length (darc_GetBaseID d)) 32); simpl;
      [| reflexivity].
    rewrite Hconfig. simpl. rewrite Hdecode. reflexivity. }
  split; [exact Hload |].
  unfold LoadBlockIntervalFromColl. rewrite Hload.
  destruct (Nat.eqb (length (darc_GetBaseID d)) 32); reflexivity.
Qed.

Lemma LoadDarcFromColl_Ok_inv coll (key : bytes) (d : Darc) :
  load_darc coll key = Ok d ->
  exists rec darcBuf rest,
    coll_Get_Record coll key = Ok rec
    /\ Record_Values rec = Ok (ValBytes darcBuf :: ValBytes darc_bytes :: rest)
    /\ darc_NewFromProtobuf darcBuf = Ok d.
Proof.
  unfold LoadDarcFromColl. intros H.
  destruct (coll_Get_Record coll key) as [rec | err] eqn:Hrec;
    [| discriminate H].
  destruct (Record_Values rec) as [vs | err] eqn:Hvalues; [| discriminate H].
  destruct vs as [| v0 [| v1 rest]]; simpl in H; try discriminate H.
  destruct v1 as [contractBuf |]; [| discriminate H].
  destruct (String.eqb (string_of_list_byte contractBuf) ContractDarcID)
    eqn:Hcontract; simpl in H; [| discriminate H].
  apply string_of_bytes_eqb in Hcontract.
  destruct v0 as [darcBuf |]; [| discriminate H].
  destruct (darc_NewFromProtobuf darcBuf) as [d' | err] eqn:Hd;
    [| discriminate H].
  inversion H; subst.
  exists rec, darcBuf, rest. repeat split; [exact Hvalues | exact Hd].
Qed.

(** X23: [LoadDarcFromColl] returns a darc exactly when the record of the
    key has at least two values, the first a byte slice that decodes to
    the darc and the second the bytes of the contract name [darc]. *)
Theorem LoadDarcFromColl_Ok_iff coll (key : bytes) (d : Darc) :
  load_darc coll key = Ok d
  <-> exists rec darcBuf rest,
        coll_Get_Record coll key = Ok rec
        /\ Record_Values rec
           = Ok (ValBytes darcBuf :: ValBytes darc_bytes :: rest)
        /\ darc_NewFromProtobuf darcBuf = Ok d.
Proof.
  split; [apply LoadDarcFromColl_Ok_inv |].
  intros (rec & darcBuf & rest & Hrec & Hvalues & Hd).
  unfold LoadDarcFromColl. rewrite Hrec, Hvalues. simpl. rewrite Hd.
  reflexivity.
Qed.

(** X24: on a record with fewer than two values the two readers differ:
    for an instruction that is not a Spawn [GetContractState] panics, while
    [LoadDarcFromColl] on the same key returns the error "not enough
    records". *)
Theorem short_record_panics_or_errors inst coll (rec : collection_Record)
    (vs : list GoValue) :
  Instruction_Spawn _ inst = None ->
  coll_Get_Record coll (Slice (Instruction_InstanceID _ inst)) = Ok rec ->
  Record_Values rec = Ok vs ->
  (length vs < 2)%nat ->
  GetContractState coll_Get_Record Record_Values inst coll = Panics
  /\ load_darc coll (Slice (Instruction_InstanceID _ inst))
     = Err "not enough records".
Proof.
  intros Hspawn Hrec Hvalues Hlen.
  unfold GetContractState, LoadDarcFromColl.
  rewrite Hspawn, Hrec, Hvalues.
  destruct vs as [| v0 [| v1 rest]]; simpl in *; try lia; split; reflexivity.
Qed.

(** X25: where [LoadDarcFromColl] finds a darc under the instance of an
    instruction that is not a Spawn, [GetContractState] reports the
    contract [darc] and, as state, bytes that decode to that darc; for a
    Spawn it reports the contract ID of the Spawn without reading the
    collection. *)
Theorem GetContractState_agrees_with_LoadDarcFromColl inst coll (d : Darc) :
  load_darc coll (Slice (Instruction_InstanceID _ inst)) = Ok d ->
  match Instruction_Spawn _ inst with
  | Some spawn =>
      GetContractState coll_Get_Record Record_Values inst coll
      = Returns (Spawn_ContractID spawn, [], None)
  | None =>
      exists state,
        GetContractState coll_Get_Record Record_Values inst coll
        = Returns ("darc", state, None)
        /\ darc_NewFromProtobuf state = Ok d
  end.
Proof.
  intros Hload. unfold GetContractState.
  destruct (Instruction_Spawn _ inst) as [spawn |]; [reflexivity |].
  apply LoadDarcFromColl_Ok_inv in Hload.
  destruct Hload as (rec & darcBuf & rest & Hrec & Hvalues & Hd).
  rewrite Hrec, Hvalues. simpl. exists darcBuf. split; [reflexivity | exact Hd].
Qed.

(** X26: the darc contract is all or nothing and does not panic, as long
    as a Spawn is for the contract [darc]: an error comes without state
    change; a success hands the coins back with exactly one state change
    of contract [darc], a Create for a Spawn, an Update of the invoked
    instance for an Invoke. *)
Theorem ContractDarc_all_or_nothing cdb inst coins :
  (forall spawn, Instruction_Spawn _ inst = Some spawn ->
                 Spawn_ContractID spawn = "darc") ->
  exists r,
    ContractDarc darc_NewFromProtobuf darc_GetBaseID coll_Get_Record
      Record_Values GetValues contracts darc_SanityCheck cdb inst coins
    = Returns r
    /\ ((ret_err r = None /\ ret_c r = coins
         /\ exists sc,
              ret_sc r = [sc]
              /\ StateChange_ContractID sc = darc_bytes
              /\ (StateChange_StateAction sc = Create
                  /\ Instruction_Spawn _ inst <> None
                  \/ StateChange_StateAction sc = Update
                     /\ StateChange_InstanceID sc
                        = Instruction_InstanceID _ inst))
        \/ (ret_err r <> None /\ ret_sc r = [])).
Proof.
  intros Hdarc. unfold ContractDarc.
  destruct (Instruction_Spawn _ inst) as [spawn |].
  - rewrite (Hdarc spawn eq_refl). simpl.
    destruct (darc_NewFromProtobuf (Search (Spawn_Args spawn) "darc"));
      eexists; (split; [reflexivity |]); simpl.
    + left. split; [reflexivity | split; [reflexivity |]].
      eexists. split; [reflexivity | split; [reflexivity |]].
      left. split; [reflexivity | discriminate].
    + right. split; [discriminate | reflexivity].
  - break_match_goal; eexists; (split; [reflexivity |]); simpl;
      try (right; split; [discriminate | reflexivity]).
    left. split; [reflexivity | split; [reflexivity |]].
    eexists. split; [reflexivity | split; [reflexivity |]].
    right. split; reflexivity.
Qed.

(** X27: an [evolve] that passes its checks replaces the darc and leaves
    its place alone: the old darc is the one stored under the darc ID of
    the invoked instance, and the one state change is an Update of the
    invoked instance, of contract [darc], whose value is the bytes of the
    [darc] argument as they came and whose darc ID is the stored one. *)
Theorem ContractDarc_evolve cdb inst coins (invoke : Invoke) (v : bytes)
    (c : string) (darcID : bytes) (newD oldD : Darc) :
  Instruction_Spawn _ inst = None ->
  Instruction_Invoke _ inst = Some invoke ->
  Invoke_Command invoke = "evolve" ->
  GetValues cdb (Slice (Instruction_InstanceID _ inst)) = Ok (v, c, darcID) ->
  darc_NewFromProtobuf (Search (Invoke_Args invoke) "darc") = Ok newD ->
  load_darc cdb darcID = Ok oldD ->
  contract_darc cdb inst coins
  = Returns
      (match darc_SanityCheck newD oldD with
       | Some err => mkContractReturn [] [] (Some err)
       | None =>
           mkContractReturn
             [ mkStateChange Update (Instruction_InstanceID _ inst)
                 darc_bytes (Search (Invoke_Args invoke) "darc") darcID ]
             coins None
       end).
Proof.
  intros Hspawn Hinvoke Hcmd Hvalues Hnew Hold.
  unfold ContractDarc. rewrite Hspawn, Hinvoke, Hcmd. simpl.
  rewrite Hvalues, Hnew, Hold.
  destruct (darc_SanityCheck newD oldD); reflexivity.
Qed.

End ContractProperties.

Lemma spawnContractConfig_all_or_nothing_witness :
  exists spawn d,
    Instruction_Spawn unit example_genesis = Some spawn
    /\ example_NewFromProtobuf (Search (Spawn_Args spawn) "darc") = Ok d
    /\ 0 < fst (example_Varint (Search (Spawn_Args spawn) "block_interval")).
Proof.
  assert (Hrun : example_spawn_config example_genesis []
                 = Returns (mkContractReturn example_genesis_view [] None))
    by reflexivity.
  destruct (spawnContractConfig_all_or_nothing example_digest unit bytes
              example_NewFromProtobuf (@length byte) (fun _ _ => None)
              example_digest bytes (fun b => Ok b) example_Encode
              example_Varint example_genesis []
              (mkContractReturn example_genesis_view [] None) Hrun)
    as [(_ & _ & _ & _ & spawn & d & Hs & Hd & _ & _ & Hi & _) | [Herr _]].
  - exists spawn, d. repeat split; assumption.
  - exfalso. apply Herr. reflexivity.
Defined.

Lemma invokeContractConfig_update_config_witness :
  example_invoke_config example_genesis_view example_update_config []
  = Returns
      (mkContractReturn
         [ mkStateChange Update
             (DeriveConfigID example_digest (example_digest [x01; x02]))
             (bytes_of_string "config") [x03; x07]
             (example_digest [x01; x02]) ]
         [] None).
Proof.
  apply (invokeContractConfig_update_config example_digest unit bytes
           (fun b => Ok b) example_Encode (list StateChange)
           example_getValueContract example_GetValues
           example_Decode_ChainConfig byte example_IsRotation
           (fun roster : bytes => roster) (fun l : list byte => Some l)
           bytes_eqb (fun a b => Returns (bytes_eqb a b)) unit
           (fun _ (_ : unit) => None) (fun _ : unit => Some tt)
           example_genesis_view example_update_config []
           (mkInvoke "update_config" [mkArgument "config" [x03; x07]])
           [x05; x07] "config" (example_digest [x01; x02])
           (mkChainConfig bytes 3 [x07]));
    reflexivity.
Defined.

Lemma invokeContractConfig_view_change_witness :
  example_invoke_config example_genesis_view example_view_change []
  = Returns
      (mkContractReturn
         [ mkStateChange Update
             (DeriveConfigID example_digest (example_digest [x01; x02]))
             (bytes_of_string "config") [x05; x07]
             (example_digest [x01; x02]) ]
         [] None).
Proof.
  apply (invokeContractConfig_view_change example_digest unit bytes
           (fun b => Ok b) example_Encode (list StateChange)
           example_getValueContract example_GetValues
           example_Decode_ChainConfig byte example_IsRotation
           (fun roster : bytes => roster) (fun l : list byte => Some l)
           bytes_eqb (fun a b => Returns (bytes_eqb a b)) unit
           (fun _ (_ : unit) => None) (fun _ : unit => Some tt)
           example_genesis_view example_view_change []
           (mkInvoke "view_change" [mkArgument "roster" [x07]])
           [x05; x07] "config" (example_digest [x01; x02])
           (mkChainConfig bytes 5 [x07]) [x07]
           (mkSignature unit [x09] tt) [] tt [x05; x07]);
    reflexivity.
Defined.

Lemma ContractConfig_all_or_nothing_witness :
  exists v c darcID value,
    example_GetValues example_genesis_view example_config_key
    = Ok (v, c, darcID)
    /\ [ mkStateChange Update
           (DeriveConfigID example_digest (example_digest [x01; x02]))
           (bytes_of_string "config") [x03; x07] (example_digest [x01; x02]) ]
       = [ mkStateChange Update (DeriveConfigID example_digest darcID)
             (bytes_of_string "config") value darcID ].
Proof.
  assert (Hrun : example_contract_config example_genesis_view
                   example_update_config []
                 = Returns
                     (mkContractReturn
                        [ mkStateChange Update
                            (DeriveConfigID example_digest
                               (example_digest [x01; x02]))
                            (bytes_of_string "config") [x03; x07]
                            (example_digest [x01; x02]) ]
                        [] None))
    by reflexivity.
  destruct (ContractConfig_all_or_nothing example_digest unit bytes
              example_NewFromProtobuf (@length byte) (fun _ _ => None)
              example_digest bytes (fun b => Ok b) example_Encode
              example_Varint (list StateChange) example_getValueContract
              example_GetValues example_Decode_ChainConfig byte
              example_IsRotation (fun roster : bytes => roster)
              (fun l : list byte => Some l) bytes_eqb
              (fun a b => Returns (bytes_eqb a b)) unit
              (fun _ (_ : unit) => None) (fun _ : unit => Some tt)
              example_genesis_view example_update_config [] _ Hrun)
    as [(_ & _ & [(Htype & _) | (_ & Hsc)]) | [Herr _]].
  - discriminate Htype.
  - exact Hsc.
  - exfalso. apply Herr. reflexivity.
Defined.

Lemma ContractConfig_panics_only_in_view_change_witness :
  GetType example_unsigned_view_change = InvokeType
  /\ exists invoke,
       Instruction_Invoke unit example_unsigned_view_change = Some invoke
       /\ Invoke_Command invoke = "view_change".
Proof.
  apply (ContractConfig_panics_only_in_view_change example_digest unit bytes
           example_NewFromProtobuf (@length byte) (fun _ _ => None)
           example_digest bytes (fun b => Ok b) example_Encode
           example_Varint (list StateChange) example_getValueContract
           example_GetValues example_Decode_ChainConfig byte
           example_IsRotation (fun roster : bytes => roster)
           (fun l : list byte => Some l) bytes_eqb
           (fun a b => Returns (bytes_eqb a b)) unit
           (fun _ (_ : unit) => None) (fun _ : unit => Some tt)
           example_genesis_view example_unsigned_view_change []).
  reflexivity.
Defined.

Lemma LoadConfigFromColl_after_genesis_witness :
  LoadConfigFromColl example_digest example_getValueContract
    example_Decode_ChainConfig example_genesis_view
  = Ok (mkChainConfig bytes 5 [x07])
  /\ LoadBlockIntervalFromColl example_digest example_getValueContract
       example_Decode_ChainConfig 1000 example_genesis_view
     = (5, None).
Proof.
  apply (LoadConfigFromColl_after_genesis example_digest unit bytes
           example_NewFromProtobuf (@length byte) (fun _ _ => None)
           example_digest bytes (fun b => Ok b) example_Encode example_Varint
           (list StateChange) example_getValueContract
           example_Decode_ChainConfig 1000 example_genesis []
           example_genesis_view
           (mkContractReturn example_genesis_view [] None)
           (mkSpawn ContractConfigID
              [ mkArgument "darc" [x01; x02]
              ; mkArgument "block_interval" [x0a]
              ; mkArgument "roster" [x07] ])
           [x01; x02] [x07] [x05; x07]);
    try reflexivity.
  repeat constructor.
Defined.

Lemma short_record_panics_or_errors_witness :
  GetContractState example_Get_Record (fun rec : list GoValue => Ok rec)
    (example_invoke "evolve" [x01]) example_short_view
  = Panics
  /\ example_load_darc example_short_view zero32 = Err "not enough records".
Proof.
  apply (short_record_panics_or_errors unit bytes example_NewFromProtobuf
           (list StateChange) (list GoValue) example_Get_Record
           (fun rec => Ok rec) (example_invoke "evolve" [x01])
           example_short_view [ValBytes (bytes_of_string "darc")]
           [ValBytes (bytes_of_string "darc")]);
    try reflexivity.
  simpl. lia.
Defined.

Lemma GetContractState_agrees_with_LoadDarcFromColl_witness :
  exists state,
    GetContractState example_Get_Record (fun rec : list GoValue => Ok rec)
      example_evolve_darc example_genesis_view
    = Returns ("darc", state, None)
    /\ example_NewFromProtobuf state = Ok [x01; x02].
Proof.
  apply (GetContractState_agrees_with_LoadDarcFromColl unit bytes
           example_NewFromProtobuf (list StateChange) (list GoValue)
           example_Get_Record (fun rec => Ok rec) example_evolve_darc
           example_genesis_view [x01; x02]).
  reflexivity.
Defined.

Lemma ContractDarc_all_or_nothing_witness :
  exists r,
    example_contract_darc example_genesis_view example_spawn_darc [] = Returns r
    /\ ((ret_err r = None /\ ret_c r = []
         /\ exists sc,
              ret_sc r = [sc]
              /\ StateChange_ContractID sc = bytes_of_string "darc"
              /\ (StateChange_StateAction sc = Create
                  /\ Instruction_Spawn unit example_spawn_darc <> None
                  \/ StateChange_StateAction sc = Update
                     /\ StateChange_InstanceID sc
                        = Instruction_InstanceID unit example_spawn_darc))
        \/ (ret_err r <> None /\ ret_sc r = [])).
Proof.
  apply (ContractDarc_all_or_nothing unit bytes example_NewFromProtobuf
           example_digest (list StateChange) (list GoValue) example_Get_Record
           (fun rec => Ok rec) example_GetValues (fun _ => None)
           (fun _ _ => None) example_genesis_view example_spawn_darc []).
  intros spawn Hspawn. inversion Hspawn. reflexivity.
Defined.

Lemma ContractDarc_evolve_witness :
  example_contract_darc example_genesis_view example_evolve_darc []
  = Returns
      (mkContractReturn
         [ mkStateChange Update (example_digest [x01; x02])
             (bytes_of_string "darc") [x03; x04] (example_digest [x01; x02]) ]
         [] None).
Proof.
  apply (ContractDarc_evolve unit bytes example_NewFromProtobuf example_digest
           (list StateChange) (list GoValue) example_Get_Record
           (fun rec => Ok rec) example_GetValues (fun _ => None)
           (fun _ _ => None) example_genesis_view example_evolve_darc []
           (mkInvoke "evolve" [mkArgument "darc" [x03; x04]])
           [x01; x02] "darc" (example_digest [x01; x02])
           [x03; x04] [x01; x02]);
    reflexivity.
Defined.
